(** * Debater: the debate orchestration engine of [app.py]

    A shallow embedding of [start_debate], [stop_debate] and [reset_debate]
    (the closures of [main] in [src/app.py]) together with the properties of
    the turn scheduler, the memory window and the streaming aggregator.

    Python values are modelled as follows.
    - [str] is [string]; every [ascii] stands for one code point, so
      [len] is [String.length].  Nothing below depends on the alphabet.
    - [int] is [Z]; [float] is the primitive binary64 [float].
    - a [list] that is updated through [l[-1]] and [l.append] is a [list],
      with the [IndexError] of an empty list written out.
    - the generator [start_debate] threads the shared [debate_state] dict,
      its local variables and the sequence of values it yields through an
      exception monad; the outside world (connectivity probe, random draw,
      generation calls, presses of the stop button) is a script the run
      consumes. *)

From Stdlib Require Import ZArith Lia String Ascii List PrimFloat.
From stdpp Require Import base list strings.

Local Open Scope Z_scope.

(** ** Python primitives used by the controller *)

Module Py.

(** [str.isspace] on the code points below 256: tab to carriage return,
    the four separators 28 to 31, the space, NEL and the no-break space. *)
Definition isspace (c : ascii) : bool :=
  match c with
  | "009" | "010" | "011" | "012" | "013"
  | "028" | "029" | "030" | "031" | " "
  | "133" | "160" => true
  | _ => false
  end%char.

Fixpoint lstrip (s : string) : string :=
  match s with
  | EmptyString => EmptyString
  | String c rest => if isspace c then lstrip rest else s
  end.

Definition rstrip (s : string) : string := String.rev (lstrip (String.rev s)).

(** [s.strip()] *)
Definition strip (s : string) : string := rstrip (lstrip s).

(** [len(s)] *)
Definition len (s : string) : Z := Z.of_nat (String.length s).

(** [s or d]: the empty string is falsy. *)
Definition or_else (s d : string) : string :=
  match s with EmptyString => d | _ => s end.

(** [l[i]] for an [int] index: negative indices count from the end, an
    index outside [-len(l) .. len(l)-1] is an [IndexError] ([None]). *)
Definition index {A} (l : list A) (i : Z) : option A :=
  if 0 <=? i then l !! Z.to_nat i
  else if - Z.of_nat (length l) <=? i then l !! Z.to_nat (Z.of_nat (length l) + i)
  else None.

(** [l[-1] = f(l[-1])]: in-place update of the last element; [None] is
    the [IndexError] raised on an empty list. *)
Definition update_last {A} (f : A -> A) (l : list A) : option (list A) :=
  match l with
  | [] => None
  | _ :: _ => Some (alter f (Nat.pred (length l)) l)
  end.

Definition join (l : list string) : string := foldr String.append EmptyString l.

End Py.

Definition newline : string := String "010"%char EmptyString.

(** ** The data model *)

(** An element of [conversation]: [{'name': ..., 'content': ...}]. *)
Record message := Message { msg_name : string; msg_content : string }.

(** An element of [chat_history]: [{'role': ..., 'content': ...}]. *)
Record chat_message := ChatMessage { chat_role : string; chat_content : string }.

(** The [debate_state] dict held in [gr.State]. *)
Record debate_state := DebateState {
  running : bool;
  conversation : list message;
  chat_history : list chat_message;
  message_count : Z;
  current_agent_index : option Z
}.

(** The initial value of [gr.State] (line 185). *)
Definition initial_state : debate_state :=
  DebateState false [] [] 0 None.

(** An element of [agents]. *)
Record agent := Agent {
  name : string;
  system_prompt : string;
  model : string;
  temperature : float;
  top_k : Z;
  memory_size : Z;
  memory : string
}.

(** The arguments of [start_debate] other than [debate_state]; the two
    integer sliders are taken after their [int(...)] conversion. *)
Record inputs := Inputs {
  topic_text : string;
  stage_rules_text : string;
  agent1_name_text : string;
  agent1_system_prompt_text : string;
  agent1_model_name : string;
  agent1_temperature_value : float;
  agent1_top_k_value : Z;
  agent1_memory_size_value : Z;
  agent2_name_text : string;
  agent2_system_prompt_text : string;
  agent2_model_name : string;
  agent2_temperature_value : float;
  agent2_top_k_value : Z;
  agent2_memory_size_value : Z;
  ollama_url_input : string
}.

(** ** The memory window (lines 271-279) *)

(** [f"{msg['name']}: {msg['content']}\n"] *)
Definition format_msg (msg : message) : string :=
  msg_name msg +:+ ": " +:+ msg_content msg +:+ newline.

(** The [for msg in reversed(conversation)] loop, with its [break]. *)
Fixpoint memory_loop (msgs : list message) (memory_size : Z)
    (memory_text : string) (memory_length : Z) : string :=
  match msgs with
  | [] => memory_text
  | msg :: rest =>
      let msg_text := format_msg msg in
      let memory_length := memory_length + Py.len msg_text in
      if memory_length >? memory_size then memory_text
      else memory_loop rest memory_size (msg_text +:+ memory_text) memory_length
  end.

Definition build_memory (conversation : list message) (memory_size : Z) : string :=
  memory_loop (rev conversation) memory_size EmptyString 0.

(** ** The prompt and the generation options (lines 281-295) *)

Definition build_prompt (ag : agent) (stage_rules_text topic_text memory_text : string) : string :=
  system_prompt ag +:+ newline +:+ newline
  +:+ Py.strip stage_rules_text +:+ newline +:+ newline
  +:+ "Topic: " +:+ Py.strip topic_text +:+ newline +:+ newline
  +:+ memory_text
  +:+ name ag +:+ ":".

Record options := Options {
  opt_temperature : float;
  opt_top_k : Z;
  opt_stop : list string
}.

(** The [agents] list built at lines 230-249. *)
Definition agents (inp : inputs) : list agent :=
  [ Agent (Py.or_else (Py.strip (agent1_name_text inp)) "Agent 1")
          (Py.strip (agent1_system_prompt_text inp))
          (agent1_model_name inp)
          (agent1_temperature_value inp)
          (agent1_top_k_value inp)
          (agent1_memory_size_value inp)
          EmptyString;
    Agent (Py.or_else (Py.strip (agent2_name_text inp)) "Agent 2")
          (Py.strip (agent2_system_prompt_text inp))
          (agent2_model_name inp)
          (agent2_temperature_value inp)
          (agent2_top_k_value inp)
          (agent2_memory_size_value inp)
          EmptyString ].

(** ** The outside world *)

(** One item of [response.iter_lines()], seen through the two library calls
    the controller applies to it: its truthiness ([if line:]) and
    [json.loads(line.decode('utf-8'))].
    - [Blank]: the empty byte string (a keep-alive line);
    - [Malformed]: a non-empty line on which [json.loads] raises;
    - [Record_ r]: a JSON object, [r] being its ['response'] string when
      the key is present. *)
Inductive line :=
  | Blank
  | Malformed
  | Record_ (response : option string).

(** What happens around one iteration of the [while] loop.  The running
    flag is shared with [stop_debate]; each flag below tells whether
    [stop_debate] ran since the previous read of [debate_state['running']].
    - [stop_at_guard]: before the [while] condition is evaluated;
    - [reply]: the result of [generate_output], [None] when the request
      failed, else the lines of the response, each with the flag read at
      line 313;
    - [stop_at_check]: before the check of line 344. *)
Record turn_script := TurnScript {
  stop_at_guard : bool;
  reply : option (list (bool * line));
  stop_at_check : bool
}.

(** One call of [start_debate]: the result of [check_ollama_connection],
    the draw of [random.randint(0, 1)], and the turns. *)
Record world := World {
  reachable : bool;
  coin : bool;
  turns : list turn_script
}.

(** ** What the generator emits *)

(** The 4-tuple yielded to Gradio: chat, status, start button, stop button.
    A bare [gr.update()] leaves the component as it is ([None]). *)
Record ui_update := UiUpdate {
  ui_chat : option (list chat_message);
  ui_status : option string;
  ui_start_interactive : bool;
  ui_stop_interactive : bool
}.

Inductive event :=
  | Probe (url : string)
  | Generate (url model prompt : string) (opts : options)
  | Yield (u : ui_update).

Inductive exn := IndexError | JSONDecodeError.

(** ** The generator's store and its monad *)

(** The shared dict, the locals of [start_debate] and the events so far.
    [conversation] and [chat_history] are aliases of the lists held in
    the dict, so they are not duplicated; [message_count] and
    [current_agent_index] are copies that are written back explicitly. *)
Record machine := Machine {
  ds : debate_state;
  l_message_count : Z;
  l_current_agent_index : Z;
  status_text : string;
  full_response : string;
  trace : list event
}.

Inductive result (A : Type) :=
  | Ok (a : A) (m : machine)
  | Raised (e : exn) (m : machine)
  | Starved (m : machine).
Arguments Ok {A} a m.
Arguments Raised {A} e m.
Arguments Starved {A} m.

Definition M (A : Type) : Type := machine -> result A.

Definition ret {A} (a : A) : M A := fun m => Ok a m.

Definition bind {A B} (c : M A) (k : A -> M B) : M B :=
  fun m =>
    match c m with
    | Ok a m' => k a m'
    | Raised e m' => Raised e m'
    | Starved m' => Starved m'
    end.

Declare Scope py_scope.
Delimit Scope py_scope with py.
Notation "x <- c ;; k" := (bind c (fun x => k))
  (at level 100, c at next level, right associativity) : py_scope.
Notation "c ;; k" := (bind c (fun _ => k))
  (at level 100, right associativity) : py_scope.
Local Open Scope py_scope.

Definition raise {A} (e : exn) : M A := fun m => Raised e m.
Definition read {A} (f : machine -> A) : M A := fun m => Ok (f m) m.
Definition modify (f : machine -> machine) : M unit := fun m => Ok tt (f m).

Definition from_option {A} (e : exn) (o : option A) : M A :=
  match o with Some a => ret a | None => raise e end.

(** *** Assignments *)

Definition with_ds (f : debate_state -> debate_state) (m : machine) : machine :=
  Machine (f (ds m)) (l_message_count m) (l_current_agent_index m)
          (status_text m) (full_response m) (trace m).

Definition set_running (b : bool) (s : debate_state) : debate_state :=
  DebateState b (conversation s) (chat_history s) (message_count s) (current_agent_index s).
Definition set_conversation (c : list message) (s : debate_state) : debate_state :=
  DebateState (running s) c (chat_history s) (message_count s) (current_agent_index s).
Definition set_chat_history (c : list chat_message) (s : debate_state) : debate_state :=
  DebateState (running s) (conversation s) c (message_count s) (current_agent_index s).
Definition set_message_count (n : Z) (s : debate_state) : debate_state :=
  DebateState (running s) (conversation s) (chat_history s) n (current_agent_index s).
Definition set_current_agent_index (i : option Z) (s : debate_state) : debate_state :=
  DebateState (running s) (conversation s) (chat_history s) (message_count s) i.

Definition set_l_message_count (n : Z) (m : machine) : machine :=
  Machine (ds m) n (l_current_agent_index m) (status_text m) (full_response m) (trace m).
Definition set_l_current_agent_index (i : Z) (m : machine) : machine :=
  Machine (ds m) (l_message_count m) i (status_text m) (full_response m) (trace m).
Definition set_status_text (s : string) (m : machine) : machine :=
  Machine (ds m) (l_message_count m) (l_current_agent_index m) s (full_response m) (trace m).
Definition set_full_response (s : string) (m : machine) : machine :=
  Machine (ds m) (l_message_count m) (l_current_agent_index m) (status_text m) s (trace m).
Definition emit (e : event) : M unit :=
  modify (fun m => Machine (ds m) (l_message_count m) (l_current_agent_index m)
                           (status_text m) (full_response m) (trace m ++ [e])).

(** [yield chat_history, status_text, gr.update(interactive=a), gr.update(interactive=b)] *)
Definition yield_chat (start_on stop_on : bool) : M unit :=
  fun m => emit (Yield (UiUpdate (Some (chat_history (ds m))) (Some (status_text m))
                                 start_on stop_on)) m.

(** [debate_state['running']], read after the pending stop request (if
    any) has run [stop_debate]'s assignment. *)
Definition read_running (stop_pressed : bool) : M bool :=
  (if stop_pressed then modify (with_ds (set_running false)) else ret tt) ;;
  read (fun m => running (ds m)).

(** [chat_history[-1]['content'] = v] *)
Definition set_last_chat_content (v : string) : M unit :=
  fun m =>
    (h <- from_option IndexError
            (Py.update_last (fun c => ChatMessage (chat_role c) v) (chat_history (ds m))) ;;
     modify (with_ds (set_chat_history h))) m.

(** [conversation[-1]['content'] = v] *)
Definition set_last_conversation_content (v : string) : M unit :=
  fun m =>
    (c <- from_option IndexError
            (Py.update_last (fun e => Message (msg_name e) v) (conversation (ds m))) ;;
     modify (with_ds (set_conversation c))) m.

(** ** The controller *)

(** [agents[i]] *)
Definition agent_at (inp : inputs) (i : Z) : M agent :=
  from_option IndexError (Py.index (agents inp) i).

(** Lines 318-329: one fragment is added to the buffer, the last entry of
    both transcripts is rewritten, and a snapshot is yielded. *)
Definition absorb (ag : agent) (partial_response : string) : M unit :=
  full <- read full_response ;;
  let full := full +:+ partial_response in
  modify (set_full_response full) ;;
  set_last_chat_content (name ag +:+ ": " +:+ full) ;;
  set_last_conversation_content full ;;
  modify (set_status_text (name ag +:+ " is typing...")) ;;
  yield_chat false true.

(** The [for line in response.iter_lines()] loop (lines 312-329), the
    [break] of line 314 included. *)
Fixpoint stream_loop (ag : agent) (lines : list (bool * line)) : M unit :=
  match lines with
  | [] => ret tt
  | (stop_pressed, l) :: rest =>
      r <- read_running stop_pressed ;;
      if negb r then ret tt
      else
        (match l with
         | Blank => ret tt
         | Malformed => raise JSONDecodeError
         | Record_ None => ret tt
         | Record_ (Some partial_response) => absorb ag partial_response
         end) ;;
        stream_loop ag rest
  end.

Definition error_sentinel : string := "Error generating response.".

(** The [if response: ... else: ...] of lines 300-341. *)
Definition respond (ag : agent) (reply : option (list (bool * line))) : M unit :=
  match reply with
  | Some lines =>
      modify (set_full_response EmptyString) ;;
      idx <- read l_current_agent_index ;;
      let role := if idx =? 0 then "user" else "assistant" in
      modify (with_ds (fun s => set_chat_history
                 (chat_history s ++ [ChatMessage role (name ag +:+ ": ")]) s)) ;;
      modify (with_ds (fun s => set_conversation
                 (conversation s ++ [Message (name ag) EmptyString]) s)) ;;
      n <- read l_message_count ;;
      modify (set_l_message_count (n + 1)) ;;
      stream_loop ag lines ;;
      full <- read full_response ;;
      modify (set_full_response (Py.strip full))
  | None =>
      modify (set_full_response error_sentinel) ;;
      set_last_chat_content (name ag +:+ ": " +:+ error_sentinel) ;;
      set_last_conversation_content error_sentinel ;;
      modify (set_status_text (name ag +:+ " encountered an error.")) ;;
      yield_chat false true
  end.

Definition stopped_status : string := "🛑 Debate stopped.".
Definition started_status : string := "🚀 Debate started.".
Definition limit_status : string := "Debate ended after reaching message limit.".
Definition unreachable_status : string :=
  "Cannot connect to Ollama server. Please check the URL and ensure the server is running.".

(** Write the two local copies back into the dict. *)
Definition write_back : M unit :=
  idx <- read l_current_agent_index ;;
  modify (with_ds (set_current_agent_index (Some idx))) ;;
  n <- read l_message_count ;;
  modify (with_ds (set_message_count n)).

(** Lines 343-362, the end of the [while] body.  The result is [false]
    when the body leaves through the [break] of line 349 and [true] when
    it runs to its end, which is a completed turn. *)
Definition conclude (ag : agent) (idx : Z) (stop_pressed : bool) : M bool :=
  r <- read_running stop_pressed ;;
  if negb r then
    modify (set_status_text stopped_status) ;;
    write_back ;;
    yield_chat true false ;;
    ret false
  else
    modify (set_status_text (name ag +:+ " finished responding.")) ;;
    yield_chat false true ;;
    modify (set_l_current_agent_index (1 - idx)) ;;
    write_back ;;
    ret true.

(** One iteration of the [while] body (lines 269-362). *)
Definition turn (inp : inputs) (te : turn_script) : M bool :=
  idx <- read l_current_agent_index ;;
  ag <- agent_at inp idx ;;
  conv <- read (fun m => conversation (ds m)) ;;
  let memory_text := build_memory conv (memory_size ag) in
  let prompt := build_prompt ag (stage_rules_text inp) (topic_text inp) memory_text in
  other <- agent_at inp (1 - idx) ;;
  let opts := Options (temperature ag) (top_k ag) [name other +:+ ":"] in
  emit (Generate (ollama_url_input inp) (model ag) prompt opts) ;;
  respond ag (reply te) ;;
  conclude ag idx (stop_at_check te).

(** [while message_count < 1000 and debate_state['running']] (line 268).
    [and] short-circuits: the flag is not read once the cap is reached.
    The loop is [Starved] when it would run a turn the script does not
    describe. *)
Fixpoint debate_loop (inp : inputs) (script : list turn_script) : M unit :=
  fun m =>
    if negb (l_message_count m <? 1000) then Ok tt m
    else
      match script with
      | [] => if running (ds m) then Starved m else Ok tt m
      | te :: rest =>
          (r <- read_running (stop_at_guard te) ;;
           if negb r then ret tt
           else
             continue <- turn inp te ;;
             if continue then debate_loop inp rest else ret tt) m
      end.

(** Lines 364-373. *)
Definition finish : M unit :=
  n <- read l_message_count ;;
  (if n >=? 1000 then
     modify (set_status_text limit_status) ;;
     modify (with_ds (set_running false)) ;;
     yield_chat true false
   else ret tt) ;;
  modify (with_ds (set_running false)) ;;
  write_back ;;
  yield_chat true false.

(** Lines 251-266: the locals are read from the dict, the first speaker
    is drawn when none is recorded, and the run is marked as started. *)
Definition prologue (w : world) : M unit :=
  n <- read (fun m => message_count (ds m)) ;;
  modify (set_l_message_count n) ;;
  i <- read (fun m => current_agent_index (ds m)) ;;
  (match i with
   | None =>
       let drawn := Z.b2z (coin w) in
       modify (set_l_current_agent_index drawn) ;;
       modify (with_ds (set_current_agent_index (Some drawn)))
   | Some i => modify (set_l_current_agent_index i)
   end) ;;
  modify (set_status_text started_status) ;;
  modify (with_ds (set_running true)) ;;
  yield_chat false true.

(** The body of [start_debate]. *)
Definition start_debate_body (inp : inputs) (w : world) : M unit :=
  r <- read (fun m => running (ds m)) ;;
  if r then
    emit (Yield (UiUpdate None None false true))
  else
    emit (Probe (ollama_url_input inp)) ;;
    if negb (reachable w) then
      h <- read (fun m => chat_history (ds m)) ;;
      emit (Yield (UiUpdate (Some h) (Some unreachable_status) true false))
    else
      prologue w ;;
      debate_loop inp (turns w) ;;
      finish.

(** How a call of [start_debate] ends. *)
Inductive ending :=
  | Returned
  | Uncaught (e : exn)
  | Unscripted.

Definition boot (st : debate_state) : machine :=
  Machine st 0 0 EmptyString EmptyString [].

(** A call of [start_debate]: how it ends, the dict as the call leaves
    it, and what it emitted. *)
Definition start_debate (inp : inputs) (w : world) (st : debate_state)
    : ending * debate_state * list event :=
  match start_debate_body inp w (boot st) with
  | Ok _ m => (Returned, ds m, trace m)
  | Raised e m => (Uncaught e, ds m, trace m)
  | Starved m => (Unscripted, ds m, trace m)
  end.

(** [stop_debate] (lines 375-380). *)
Definition stop_debate (st : debate_state) : debate_state * ui_update :=
  (set_running false st, UiUpdate None (Some stopped_status) true false).

(** [reset_debate] (lines 382-391). *)
Definition reset_debate (st : debate_state) : debate_state * ui_update :=
  let st := set_running false st in
  let st := set_conversation [] st in
  let st := set_chat_history [] st in
  let st := set_message_count 0 st in
  let st := set_current_agent_index None st in
  (st, UiUpdate (Some []) (Some "🔄 Debate reset.") true false).

(** ** Observations on a run *)

Definition is_generate (e : event) : bool :=
  match e with Generate _ _ _ _ => true | _ => false end.

(** The number of generation calls, that is, of turns begun. *)
Definition turns_begun (tr : list event) : nat := length (filter is_generate tr).

(** The status text of the last value yielded. *)
Definition last_status (tr : list event) : option string :=
  match last tr with
  | Some (Yield u) => ui_status u
  | _ => None
  end.

Arguments turns_begun : simpl never.
Arguments last_status : simpl never.

(** [fragments lines]: the ['response'] strings of a stream, in order. *)
Definition fragment_of (l : bool * line) : list string :=
  match snd l with Record_ (Some f) => [f] | _ => [] end.
Definition fragments (lines : list (bool * line)) : list string :=
  concat (map fragment_of lines).

(** ** Concrete inputs *)

(** The values the form is created with (lines 67-182), with a model name
    as the server would list it. *)
Definition form_defaults : inputs :=
  Inputs "Climate change"
         "Stay on topic and keep your responses short."
         "Climate Scientist"
         "You are a knowledgeable climate scientist advocating for immediate action to combat climate change."
         "llama3" 1%float 40 2000
         "Conservative Farmer"
         "You are a conservative farmer skeptical about the impact of human activities on climate change."
         "llama3" 1%float 40 2000
         "http://localhost:11434".

(** A session in which the farmer (agent 2) has spoken once and the
    scientist (agent 1) is next. *)
Definition after_one_turn : debate_state :=
  DebateState false
    [Message "Conservative Farmer" "Hi."]
    [ChatMessage "assistant" "Conservative Farmer: Hi."]
    1 (Some 0).

(** A script item for a generation call that fails. *)
Definition failed_call : turn_script := TurnScript false None false.

(** A script item for a response that is read to its end, nobody pressing
    stop. *)
Definition undisturbed (lines : list line) : turn_script :=
  TurnScript false (Some (map (pair false) lines)) false.

(** A script item in which stop is pressed before the loop condition. *)
Definition stop_now : turn_script := TurnScript true None false.

(** The machine a computation stops in, however it stops. *)
Definition machine_of {A} (r : result A) : machine :=
  match r with Ok _ m => m | Raised _ m => m | Starved m => m end.

(** What consuming a response stream leaves alone: the counters, the
    speaker, the number of entries of both transcripts and the number of
    generation calls; the running flag is never switched on. *)
Record frame (m m' : machine) : Prop := Frame {
  fr_l_message_count : l_message_count m' = l_message_count m;
  fr_l_current_agent_index : l_current_agent_index m' = l_current_agent_index m;
  fr_message_count : message_count (ds m') = message_count (ds m);
  fr_current_agent_index : current_agent_index (ds m') = current_agent_index (ds m);
  fr_chat_history : length (chat_history (ds m')) = length (chat_history (ds m));
  fr_conversation : length (conversation (ds m')) = length (conversation (ds m));
  fr_turns_begun : turns_begun (trace m') = turns_begun (trace m);
  fr_running : running (ds m') = true -> running (ds m) = true
}.

(** While a response is consumed, the last entry of both transcripts
    holds the buffer [full_response]: [cl] and [hl] are the entries of
    the earlier turns. *)
Definition streaming (ag : agent) (cl : list message) (hl : list chat_message)
    (role : string) (m : machine) : Prop :=
  conversation (ds m) = cl ++ [Message (name ag) (full_response m)]
  /\ chat_history (ds m)
     = hl ++ [ChatMessage role (name ag +:+ ": " +:+ full_response m)].

(** The machine after lines 301-309: the buffer is emptied, the
    placeholder entries are appended and the turn is counted. *)
Definition placeholder (ag : agent) (m : machine) : machine :=
  let role := if l_current_agent_index m =? 0 then "user" else "assistant" in
  Machine
    (DebateState (running (ds m))
       (conversation (ds m) ++ [Message (name ag) EmptyString])
       (chat_history (ds m) ++ [ChatMessage role (name ag +:+ ": ")])
       (message_count (ds m)) (current_agent_index (ds m)))
    (l_message_count m + 1) (l_current_agent_index m)
    (status_text m) EmptyString (trace m).

(** The summed length of the formatted entries. *)
Definition total_len (l : list message) : Z :=
  Py.len (Py.join (map format_msg l)).

(** [after_turns inp script m]: the machine back at the head of the
    [while] loop after the loop, started in [m], has run one completed
    turn for each item of [script]; [None] when some iteration does not
    run to the end of the loop body (the cap is reached, stop is pressed,
    or an exception is raised). *)
Fixpoint after_turns (inp : inputs) (script : list turn_script) (m : machine)
    : option machine :=
  match script with
  | [] => Some m
  | te :: rest =>
      if l_message_count m <? 1000 then
        match read_running (stop_at_guard te) m with
        | Ok true m0 =>
            match turn inp te m0 with
            | Ok true m1 => after_turns inp rest m1
            | _ => None
            end
        | _ => None
        end
      else None
  end.

(** ** Further observations on a run *)

(** A line that is not handed to [json.loads], or that it accepts. *)
Definition parses (l : line) : bool :=
  match l with Malformed => false | _ => true end.

(** The generation call of a script item returns a response. *)
Definition replies (te : turn_script) : bool :=
  match reply te with Some _ => true | None => false end.

(** The generation call returns a response all of whose lines parse. *)
Definition answers (te : turn_script) : bool :=
  match reply te with
  | Some lines => forallb (fun x => parses x.2) lines
  | None => false
  end.

(** What the chat shows for a conversation entry: [f"{name}: {content}"]. *)
Definition shown (c : message) : string := msg_name c +:+ ": " +:+ msg_content c.

(** The chat history displays the conversation, entry by entry. *)
Definition in_step (st : debate_state) : Prop :=
  map chat_content (chat_history st) = map shown (conversation st).

(** How the transcripts and the counters move together: the local
    counter never decreases, both transcripts gain as many entries as it
    gains, the speakers and roles already recorded stay, and the count in
    the dict, once not ahead of the local one, neither decreases nor gets
    ahead of it. *)
Record grows (m m' : machine) : Prop := Grows {
  gr_count : l_message_count m <= l_message_count m';
  gr_written :
    message_count (ds m) <= l_message_count m ->
    message_count (ds m) <= message_count (ds m') <= l_message_count m';
  gr_conversation :
    Z.of_nat (length (conversation (ds m')))
    = Z.of_nat (length (conversation (ds m))) + (l_message_count m' - l_message_count m);
  gr_chat_history :
    Z.of_nat (length (chat_history (ds m')))
    = Z.of_nat (length (chat_history (ds m))) + (l_message_count m' - l_message_count m);
  gr_names :
    map msg_name (conversation (ds m)) `prefix_of` map msg_name (conversation (ds m'));
  gr_roles :
    map chat_role (chat_history (ds m)) `prefix_of` map chat_role (chat_history (ds m'))
}.

(** The transcripts are only appended to, and the chat keeps displaying
    the conversation. *)
Record extends (m m' : machine) : Prop := Extends {
  ex_conversation : conversation (ds m) `prefix_of` conversation (ds m');
  ex_chat_history : chat_history (ds m) `prefix_of` chat_history (ds m');
  ex_in_step : in_step (ds m) -> in_step (ds m')
}.

(** The values yielded while the fragments [frs] arrive on top of the
    buffer [full]: after each fragment, the earlier chat entries [hl]
    followed by the entry of the turn, showing the buffer so far. *)
Fixpoint snapshots (ag : agent) (hl : list chat_message) (role full : string)
    (frs : list string) : list event :=
  match frs with
  | [] => []
  | f :: rest =>
      Yield (UiUpdate
               (Some (hl ++ [ChatMessage role (name ag +:+ ": " +:+ (full +:+ f))]))
               (Some (name ag +:+ " is typing...")) false true)
      :: snapshots ag hl role (full +:+ f) rest
  end.

(** The generation request of a turn in which slot [i] speaks on the
    conversation [conv] (lines 269-298): the model of the speaker, the
    prompt built for it, its sampling options, and a stop list holding the
    name of the other slot followed by a colon. *)
Definition request_of (inp : inputs) (i : Z) (conv : list message) : option event :=
  match Py.index (agents inp) i, Py.index (agents inp) (1 - i) with
  | Some ag, Some other =>
      Some (Generate (ollama_url_input inp) (model ag)
              (build_prompt ag (stage_rules_text inp) (topic_text inp)
                 (build_memory conv (memory_size ag)))
              (Options (temperature ag) (top_k ag) [name other +:+ ":"]))
  | _, _ => None
  end.

(** An event that, when it is a generation request, is the request of
    one of the two slots on some conversation. *)
Definition well_addressed (inp : inputs) (e : event) : Prop :=
  match e with
  | Generate _ _ _ _ =>
      exists i conv, (i = 0 \/ i = 1) /\ request_of inp i conv = Some e
  | _ => True
  end.

(** The trace is extended by well-addressed events only. *)
Definition asks (inp : inputs) (m m' : machine) : Prop :=
  exists new, trace m' = trace m ++ new /\ Forall (well_addressed inp) new.

(** The role under which slot [idx] speaks (line 302). *)
Definition role_of (idx : Z) : string := if idx =? 0 then "user" else "assistant".

(** ** Turns that ran to the end of the loop body *)

(** [s.startswith(p)] *)
Fixpoint starts_with (p s : string) : bool :=
  match p with
  | EmptyString => true
  | String a p' =>
      match s with
      | EmptyString => false
      | String b s' => Ascii.eqb a b && starts_with p' s'
      end
  end.

(** [s.endswith(suffix)] *)
Definition ends_with (suffix s : string) : bool :=
  starts_with (String.rev suffix) (String.rev s).

Definition finished_suffix : string := " finished responding.".

(** The value yielded at line 355, at the end of the loop body: the
    status ["<name> finished responding."] with the start button disabled
    and the stop button enabled.  No other [yield] of [start_debate] has
    this form. *)
Definition is_finished (e : event) : bool :=
  match e with
  | Yield (UiUpdate _ (Some s) false true) => ends_with finished_suffix s
  | _ => false
  end.

(** The number of turns of a run that ran to the end of the loop body. *)
Definition completed_turns (tr : list event) : nat := length (filter is_finished tr).

Arguments completed_turns : simpl never.


(** ** Scripts in which stop is pressed *)

(** The script has stop pressed at some point of the turn: before the
    loop condition, while the response is read, or before the check of
    line 344.  A press is applied by the read of the flag that follows it;
    one the script places after the point where the turn raises is
    applied by no read. *)
Definition pressed_in (te : turn_script) : bool :=
  stop_at_guard te
  || stop_at_check te
  || match reply te with
     | Some lines => existsb fst lines
     | None => false
     end.

Definition stop_is_pressed (w : world) : bool := existsb pressed_in (turns w).

(** A session with one entry whose message_count was set to 999. *)
Definition one_turn_at_999 : debate_state :=
  DebateState false
    [Message "Conservative Farmer" "Hi."]
    [ChatMessage "assistant" "Conservative Farmer: Hi."]
    999 (Some 0).

(** * Properties *)

(** ** Strings *)

Lemma str_app_cons (c : ascii) (s t : string) : String c s +:+ t = String c (s +:+ t).
Proof. reflexivity. Qed.

Lemma str_app_empty_r (s : string) : s +:+ EmptyString = s.
Proof. induction s as [|c s IH]; [reflexivity|]. by rewrite str_app_cons, IH. Qed.

Lemma str_app_assoc (s t u : string) : (s +:+ t) +:+ u = s +:+ (t +:+ u).
Proof. induction s as [|c s IH]; [reflexivity|]. by rewrite !str_app_cons, IH. Qed.

Lemma len_app (s t : string) : Py.len (s +:+ t) = Py.len s + Py.len t.
Proof.
  unfold Py.len. induction s as [|c s IH]; [reflexivity|].
  rewrite str_app_cons. cbn [String.length]. lia.
Qed.

Lemma len_nonneg (s : string) : 0 <= Py.len s.
Proof. unfold Py.len. lia. Qed.

Lemma len_zero (s : string) : Py.len s = 0 -> s = EmptyString.
Proof. destruct s; [reflexivity|]. unfold Py.len. cbn. lia. Qed.

Lemma join_app (l1 l2 : list string) :
  Py.join (l1 ++ l2) = Py.join l1 +:+ Py.join l2.
Proof.
  induction l1 as [|s l1 IH]; [reflexivity|].
  cbn [app Py.join foldr] in *. fold (Py.join (l1 ++ l2)). fold (Py.join l1).
  by rewrite IH, str_app_assoc.
Qed.

Lemma join_singleton (s : string) : Py.join [s] = s.
Proof. apply str_app_empty_r. Qed.


(** ** The memory window *)

Lemma total_len_cons e l : total_len (e :: l) = Py.len (format_msg e) + total_len l.
Proof. unfold total_len. cbn [map Py.join foldr]. apply len_app. Qed.

Lemma total_len_snoc l e : total_len (l ++ [e]) = total_len l + Py.len (format_msg e).
Proof.
  unfold total_len. rewrite map_app, join_app, len_app. cbn [map].
  by rewrite join_singleton.
Qed.

Lemma total_len_rev l : total_len (rev l) = total_len l.
Proof.
  induction l as [|e l IH]; [reflexivity|].
  cbn [rev]. rewrite total_len_snoc, total_len_cons, IH. lia.
Qed.

Lemma format_msg_len e : 3 <= Py.len (format_msg e).
Proof.
  unfold format_msg. rewrite !len_app.
  pose proof (len_nonneg (msg_name e)). pose proof (len_nonneg (msg_content e)).
  change (Py.len ": ") with 2. change (Py.len newline) with 1. lia.
Qed.

(** The loop takes a prefix [taken] of the entries it walks through and
    stops at the first entry that does not fit any more. *)
Lemma memory_loop_split (msgs : list message) (budget : Z) :
  forall text acc,
  exists taken rest,
    msgs = taken ++ rest
    /\ memory_loop msgs budget text acc
       = Py.join (map format_msg (rev taken)) +:+ text
    /\ (taken <> [] -> acc + total_len taken <= budget)
    /\ (forall e rest', rest = e :: rest' ->
          acc + total_len taken + Py.len (format_msg e) > budget).
Proof.
  induction msgs as [|msg msgs IH]; intros text acc.
  - exists [], []. repeat split; [congruence | intros ? ? [=]].
  - cbn [memory_loop].
    destruct (acc + Py.len (format_msg msg) >? budget) eqn:Hover.
    + exists [], (msg :: msgs).
      repeat split; [congruence|].
      intros e rest' [= <- <-]. change (total_len []) with 0. lia.
    + destruct (IH (format_msg msg +:+ text) (acc + Py.len (format_msg msg)))
        as (taken & rest & -> & Hres & Hfit & Hstop).
      exists (msg :: taken), rest.
      split; [reflexivity|]. split; [|split].
      * rewrite Hres. cbn [rev]. rewrite map_app, join_app. cbn [map].
        by rewrite join_singleton, str_app_assoc.
      * intros _. rewrite total_len_cons.
        destruct taken as [|t taken].
        -- change (total_len []) with 0. lia.
        -- assert (t :: taken <> []) as Hne by congruence.
           specialize (Hfit Hne). lia.
      * intros e rest' ->. rewrite total_len_cons.
        specialize (Hstop e rest' eq_refl). lia.
Qed.

Lemma last_rev_cons {A} (x : A) (l : list A) : last (rev (x :: l)) = Some x.
Proof. cbn [rev]. apply last_snoc. Qed.


(** C3, as the code has it.  [build_memory history budget] is the
    concatenation, in chronological order, of the formatted entries of a
    suffix [kept] of the history, each entry whole.  The walk from the
    newest entry stops before the first entry [e] whose formatted length
    would push the cumulative length strictly past the budget, so [e] and
    every older entry are left out.  The length of the result is at most
    the budget whenever some entry is kept or the budget is not negative;
    when the newest entry alone exceeds the budget, and whenever the budget
    is at most 0, the result is the empty string. *)
Theorem build_memory_newest_fitting_suffix (history : list message) (budget : Z) :
  exists older kept,
    history = older ++ kept
    /\ build_memory history budget = Py.join (map format_msg kept)
    /\ (forall e, last older = Some e ->
          Py.len (format_msg e) + Py.len (build_memory history budget) > budget)
    /\ (kept <> [] -> Py.len (build_memory history budget) <= budget)
    /\ (0 <= budget -> Py.len (build_memory history budget) <= budget)
    /\ (forall e, last history = Some e -> Py.len (format_msg e) > budget ->
          build_memory history budget = EmptyString)
    /\ (budget <= 0 -> build_memory history budget = EmptyString).
Proof.
  unfold build_memory.
  destruct (memory_loop_split (rev history) budget EmptyString 0)
    as (taken & rest & Hsplit & Hres & Hfit & Hstop).
  rewrite str_app_empty_r in Hres.
  assert (Hlen : Py.len (memory_loop (rev history) budget EmptyString 0) = total_len taken).
  { rewrite Hres. fold (total_len (rev taken)). apply total_len_rev. }
  assert (Hempty : taken = [] -> memory_loop (rev history) budget EmptyString 0 = EmptyString).
  { intros ->. by rewrite Hres. }
  exists (rev rest), (rev taken).
  split; [|split; [|split; [|split; [|split; [|split]]]]].
  - rewrite <- rev_app_distr, <- Hsplit. by rewrite rev_involutive.
  - exact Hres.
  - intros e He. rewrite Hlen.
    destruct rest as [|r rest]; [discriminate|].
    rewrite last_rev_cons in He. injection He as ->.
    specialize (Hstop e rest eq_refl). lia.
  - intros Hne. rewrite Hlen. apply Hfit. intros ->. by apply Hne.
  - intros Hb. rewrite Hlen.
    destruct taken as [|t taken]; [change (total_len []) with 0; lia|].
    apply Hfit. congruence.
  - intros e He Hbig. apply Hempty.
    destruct taken as [|t taken]; [reflexivity|exfalso].
    assert (t = e) as ->.
    { assert (history = rev rest ++ rev (t :: taken)) as Hh.
      { rewrite <- rev_app_distr, <- Hsplit. by rewrite rev_involutive. }
      rewrite Hh in He. cbn [rev] in He.
      rewrite (assoc_L (++)) in He. rewrite last_snoc in He. congruence. }
    assert (e :: taken <> []) as Hne by congruence.
    specialize (Hfit Hne). rewrite total_len_cons in Hfit.
    assert (0 <= total_len taken) by apply len_nonneg. lia.
  - intros Hb. apply Hempty.
    destruct taken as [|t taken]; [reflexivity|exfalso].
    assert (t :: taken <> []) as Hne by congruence.
    specialize (Hfit Hne). rewrite total_len_cons in Hfit.
    pose proof (format_msg_len t).
    assert (0 <= total_len taken) by apply len_nonneg. lia.
Qed.

Lemma build_memory_newest_fitting_suffix_example :
  build_memory
    [Message "B" "an older entry of forty characters."; Message "A" "hello hello hello"] 50
  = "A: hello hello hello" +:+ newline
  /\ exists older kept,
       [Message "B" "an older entry of forty characters."; Message "A" "hello hello hello"]
         = older ++ kept
       /\ build_memory
            [Message "B" "an older entry of forty characters."; Message "A" "hello hello hello"] 50
          = Py.join (map format_msg kept).
Proof.
  split; [reflexivity|].
  destruct (build_memory_newest_fitting_suffix
              [Message "B" "an older entry of forty characters."; Message "A" "hello hello hello"] 50)
    as (older & kept & Hsplit & Hres & _).
  exists older, kept. split; [exact Hsplit | exact Hres].
Defined.

(** C3 as stated fails for a negative budget: the window of the empty
    history is the empty string, whose length 0 exceeds the budget -1. *)
Lemma build_memory_exceeds_negative_budget :
  build_memory [] (-1) = EmptyString
  /\ ~ (Py.len (build_memory [] (-1)) <= -1).
Proof. split; [reflexivity|]. vm_compute. intros H. by apply H. Qed.

(** ** The store: elementary facts *)

Section Store.

Context {A : Type}.
Implicit Types (f : A -> A) (l : list A).

Lemma update_last_snoc f l x : Py.update_last f (l ++ [x]) = Some (l ++ [f x]).
Proof.
  unfold Py.update_last. destruct (l ++ [x]) as [|y l'] eqn:E.
  - by destruct l.
  - rewrite <- E. f_equal. rewrite length_app. cbn [length].
    replace (Nat.pred (length l + 1)) with (length l + 0)%nat by lia.
    by rewrite alter_app_r.
Qed.

Lemma update_last_length f l l' : Py.update_last f l = Some l' -> length l' = length l.
Proof.
  unfold Py.update_last. destruct l; [discriminate|].
  intros [= <-]. apply length_alter.
Qed.

Lemma update_last_nonempty f l : (0 < length l)%nat -> is_Some (Py.update_last f l).
Proof. destruct l; cbn; [lia | eauto]. Qed.

Lemma update_last_empty f : Py.update_last f [] = None.
Proof. reflexivity. Qed.

End Store.

Lemma turns_begun_snoc tr e :
  turns_begun (tr ++ [e]) = (turns_begun tr + if is_generate e then 1 else 0)%nat.
Proof.
  unfold turns_begun. rewrite filter_app, length_app. f_equal.
  by destruct e.
Qed.

Lemma last_status_yield tr u : last_status (tr ++ [Yield u]) = ui_status u.
Proof. unfold last_status. by rewrite last_snoc. Qed.

Lemma stopped_machine m : running (ds m) = false -> with_ds (set_running false) m = m.
Proof. destruct m as [[r conv chat mc idx] lmc lidx status full tr]. cbn. by intros ->. Qed.

(** [agents] has exactly the two slots 0 and 1; Python also accepts -2
    and -1 for them. *)
Lemma agent_at_slot inp i : i = 0 \/ i = 1 -> is_Some (Py.index (agents inp) i).
Proof. intros [-> | ->]; cbn; eauto. Qed.

Lemma agent_at_range inp i ag : Py.index (agents inp) i = Some ag -> -2 <= i <= 1.
Proof.
  unfold Py.index. change (length (agents inp)) with 2%nat.
  destruct (Z.leb_spec 0 i).
  - intros Hl. apply lookup_lt_Some in Hl.
    change (length (agents inp)) with 2%nat in Hl. lia.
  - destruct (Z.leb_spec (- Z.of_nat 2) i); [lia | discriminate].
Qed.

(** ** What a response stream leaves alone *)

Lemma frame_refl m : frame m m.
Proof. by constructor. Qed.

Lemma frame_trans m1 m2 m3 : frame m1 m2 -> frame m2 m3 -> frame m1 m3.
Proof.
  intros [] []. constructor; try congruence. auto.
Qed.

Lemma frame_bind {A B} (c : M A) (k : A -> M B) :
  (forall m, frame m (machine_of (c m))) ->
  (forall a m, frame m (machine_of (k a m))) ->
  forall m, frame m (machine_of (bind c k m)).
Proof.
  intros Hc Hk m. unfold bind. specialize (Hc m).
  destruct (c m) as [a m'|e m'|m']; cbn in *; [|done..].
  eapply frame_trans; [exact Hc | apply Hk].
Qed.

Lemma frame_ret {A} (a : A) m : frame m (machine_of (ret a m)).
Proof. apply frame_refl. Qed.

Lemma frame_raise {A} e m : frame m (machine_of (raise (A:=A) e m)).
Proof. apply frame_refl. Qed.

Lemma frame_read {A} (f : machine -> A) m : frame m (machine_of (read f m)).
Proof. apply frame_refl. Qed.

Lemma frame_set_status_text s m : frame m (machine_of (modify (set_status_text s) m)).
Proof. by constructor. Qed.

Lemma frame_set_full_response s m : frame m (machine_of (modify (set_full_response s) m)).
Proof. by constructor. Qed.

Lemma frame_yield_chat a b m : frame m (machine_of (yield_chat a b m)).
Proof.
  constructor; try done.
  unfold yield_chat, emit, modify, machine_of. cbn [trace].
  rewrite turns_begun_snoc. cbn [is_generate]. lia.
Qed.

Lemma frame_read_running stop_pressed m : frame m (machine_of (read_running stop_pressed m)).
Proof. destruct stop_pressed; by constructor. Qed.

Lemma frame_set_last_chat_content v m : frame m (machine_of (set_last_chat_content v m)).
Proof.
  unfold set_last_chat_content, bind, from_option.
  destruct (Py.update_last _ _) as [h|] eqn:E; cbn; [|apply frame_refl].
  constructor; try done. cbn. by apply update_last_length in E.
Qed.

Lemma frame_set_last_conversation_content v m :
  frame m (machine_of (set_last_conversation_content v m)).
Proof.
  unfold set_last_conversation_content, bind, from_option.
  destruct (Py.update_last _ _) as [h|] eqn:E; cbn; [|apply frame_refl].
  constructor; try done. cbn. by apply update_last_length in E.
Qed.

Ltac frame_step :=
  first [ apply frame_ret | apply frame_raise | apply frame_read
        | apply frame_set_full_response | apply frame_set_status_text
        | apply frame_set_last_chat_content
        | apply frame_set_last_conversation_content
        | apply frame_yield_chat | apply frame_read_running
        | cbv zeta; apply frame_bind; intros ].

Lemma frame_absorb ag p m : frame m (machine_of (absorb ag p m)).
Proof. unfold absorb. repeat frame_step. Qed.

Lemma frame_stream_loop ag lines : forall m, frame m (machine_of (stream_loop ag lines m)).
Proof.
  induction lines as [|[stop_pressed l] lines IH]; [apply frame_refl|].
  cbn [stream_loop]. apply frame_bind; [apply frame_read_running|].
  intros r. destruct r; cbn [negb]; [|apply frame_ret].
  apply frame_bind; [|intros; apply IH].
  destruct l as [| |[p|]]; first [apply frame_ret | apply frame_raise | apply frame_absorb].
Qed.

(** The [else] branch of the turn neither appends an entry nor counts
    the turn. *)
Lemma frame_respond_failed ag m : frame m (machine_of (respond ag None m)).
Proof. unfold respond. repeat frame_step. Qed.


(** ** The blocks of the turn *)

Lemma read_running_eq stop_pressed m :
  read_running stop_pressed m
  = Ok (running (ds m) && negb stop_pressed)
       (if stop_pressed then with_ds (set_running false) m else m).
Proof.
  destruct stop_pressed; cbn.
  - by rewrite andb_false_r.
  - by rewrite andb_true_r.
Qed.

Lemma absorb_streaming ag cl hl role p m :
  streaming ag cl hl role m ->
  exists m',
    absorb ag p m = Ok tt m'
    /\ streaming ag cl hl role m'
    /\ full_response m' = full_response m +:+ p
    /\ running (ds m') = running (ds m).
Proof.
  destruct m as [[r conv chat mc idx] lmc lidx status full tr].
  unfold streaming. cbn. intros [-> ->].
  unfold absorb, bind, read, modify, set_last_chat_content,
    set_last_conversation_content, from_option, yield_chat, emit. cbn.
  rewrite update_last_snoc. cbn. rewrite update_last_snoc. cbn.
  eexists. split; [reflexivity|]. cbn. repeat split.
Qed.

Lemma stream_loop_returns ag cl hl role lines :
  Forall (fun x => x.2 <> Malformed) lines ->
  forall m,
    streaming ag cl hl role m ->
    exists m',
      stream_loop ag lines m = Ok tt m'
      /\ streaming ag cl hl role m'
      /\ (Forall (fun x => x.1 = false) lines ->
          running (ds m) = true ->
          running (ds m') = true
          /\ full_response m' = full_response m +:+ Py.join (fragments lines)).
Proof.
  induction 1 as [|[stop_pressed l] lines Hl Hlines IH]; intros m Hm.
  - exists m. split; [done|]. split; [done|]. intros _ Hr. split; [done|].
    cbn. by rewrite str_app_empty_r.
  - cbn [stream_loop]. unfold bind at 1. rewrite read_running_eq.
    destruct (running (ds m) && negb stop_pressed) eqn:Hgo; cbn [negb].
    + apply andb_true_iff in Hgo as [Hrun Hquiet].
      destruct stop_pressed; [discriminate|].
      destruct l as [| |[p|]]; [| by destruct Hl | |].
      * destruct (IH m Hm) as (m' & Hrun' & Hs' & Hfull).
        exists m'. unfold bind, ret. split; [done|]. split; [done|].
        intros Hq _. inversion Hq; subst. by apply Hfull.
      * destruct (absorb_streaming ag cl hl role p m Hm)
          as (m1 & Habs & Hs1 & Hfull1 & Hrun1).
        destruct (IH m1 Hs1) as (m' & Hrun' & Hs' & Hfull).
        exists m'. unfold bind. rewrite Habs. split; [done|]. split; [done|].
        intros Hq _. inversion Hq; subst.
        destruct Hfull as [Hr Hf]; [done | congruence |].
        split; [done|]. rewrite Hf, Hfull1.
        unfold fragments. cbn [map concat fragment_of snd app].
        fold (fragments lines). change (p :: fragments lines) with ([p] ++ fragments lines).
        by rewrite join_app, join_singleton, str_app_assoc.
      * destruct (IH m Hm) as (m' & Hrun' & Hs' & Hfull).
        exists m'. unfold bind, ret. split; [done|]. split; [done|].
        intros Hq _. inversion Hq; subst. by apply Hfull.
    + exists (if stop_pressed then with_ds (set_running false) m else m).
      split; [done|]. split.
      * destruct stop_pressed; [|done].
        destruct m as [[r conv chat mc idx] lmc lidx status full tr]. exact Hm.
      * intros Hq Hrun. inversion Hq as [|? ? Hhead]; subst. cbn in Hhead. subst.
        rewrite Hrun in Hgo. discriminate.
Qed.

Lemma stream_loop_stopped ag lines m :
  running (ds m) = false -> stream_loop ag lines m = Ok tt m.
Proof.
  intros Hrun. destruct lines as [|[stop_pressed l] lines]; [done|].
  cbn [stream_loop]. unfold bind. rewrite read_running_eq, Hrun. cbn.
  destruct stop_pressed; [|done]. by rewrite stopped_machine.
Qed.

Lemma respond_some_eq ag lines m :
  respond ag (Some lines) m
  = match stream_loop ag lines (placeholder ag m) with
    | Ok _ m' => Ok tt (set_full_response (Py.strip (full_response m')) m')
    | Raised e m' => Raised e m'
    | Starved m' => Starved m'
    end.
Proof.
  unfold respond, bind, read, modify, placeholder. cbn.
  by destruct (stream_loop _ _ _).
Qed.

Lemma placeholder_streaming ag m :
  streaming ag (conversation (ds m)) (chat_history (ds m))
    (if l_current_agent_index m =? 0 then "user" else "assistant")
    (placeholder ag m).
Proof. unfold streaming, placeholder. cbn. by rewrite str_app_empty_r. Qed.

(** A response without malformed line is consumed to its end or to the
    stop request, one entry is appended and the turn is counted. *)
Lemma respond_streams ag lines m :
  Forall (fun x => x.2 <> Malformed) lines ->
  exists m',
    respond ag (Some lines) m = Ok tt m'
    /\ l_message_count m' = l_message_count m + 1
    /\ l_current_agent_index m' = l_current_agent_index m
    /\ turns_begun (trace m') = turns_begun (trace m)
    /\ length (conversation (ds m')) = S (length (conversation (ds m)))
    /\ length (chat_history (ds m')) = S (length (chat_history (ds m))).
Proof.
  intros Hlines. rewrite respond_some_eq.
  destruct (stream_loop_returns ag _ _ _ lines Hlines _ (placeholder_streaming ag m))
    as (m' & Hrun & _ & _).
  pose proof (frame_stream_loop ag lines (placeholder ag m)) as Hfr.
  rewrite Hrun in *. cbn in Hfr. destruct Hfr.
  eexists. split; [reflexivity|].
  destruct m' as [[r conv chat mc idx] lmc lidx status full tr]. cbn in *.
  rewrite !length_app in *. cbn in *. repeat split; try done; lia.
Qed.

Lemma conclude_spec ag idx stop_pressed m :
  exists m',
    conclude ag idx stop_pressed m = Ok (running (ds m) && negb stop_pressed) m'
    /\ l_message_count m' = l_message_count m
    /\ message_count (ds m') = l_message_count m
    /\ turns_begun (trace m') = turns_begun (trace m)
    /\ conversation (ds m') = conversation (ds m)
    /\ chat_history (ds m') = chat_history (ds m)
    /\ running (ds m') = running (ds m) && negb stop_pressed
    /\ (running (ds m) && negb stop_pressed = true ->
        l_current_agent_index m' = 1 - idx
        /\ current_agent_index (ds m') = Some (1 - idx)).
Proof.
  unfold conclude, bind. rewrite read_running_eq.
  destruct m as [[r conv chat mc i] lmc lidx status full tr].
  destruct r, stop_pressed; cbn; eexists; (split; [reflexivity|]); cbn;
    rewrite ?turns_begun_snoc; cbn; repeat split; try done; lia.
Qed.

Lemma finish_spec m :
  exists m',
    finish m = Ok tt m'
    /\ running (ds m') = false
    /\ message_count (ds m') = l_message_count m
    /\ current_agent_index (ds m') = Some (l_current_agent_index m)
    /\ conversation (ds m') = conversation (ds m)
    /\ chat_history (ds m') = chat_history (ds m)
    /\ turns_begun (trace m') = turns_begun (trace m)
    /\ last_status (trace m')
       = Some (if l_message_count m >=? 1000 then limit_status else status_text m).
Proof.
  destruct m as [[r conv chat mc i] lmc lidx status full tr].
  unfold finish, bind, read. cbn.
  destruct (lmc >=? 1000); cbn; eexists; (split; [reflexivity|]); cbn;
    rewrite ?last_status_yield, ?turns_begun_snoc; cbn; repeat split; try done; lia.
Qed.

Lemma prologue_spec w m :
  exists m',
    prologue w m = Ok tt m'
    /\ running (ds m') = true
    /\ l_message_count m' = message_count (ds m)
    /\ message_count (ds m') = message_count (ds m)
    /\ l_current_agent_index m'
       = match current_agent_index (ds m) with Some i => i | None => Z.b2z (coin w) end
    /\ current_agent_index (ds m') = Some (l_current_agent_index m')
    /\ conversation (ds m') = conversation (ds m)
    /\ chat_history (ds m') = chat_history (ds m)
    /\ turns_begun (trace m') = turns_begun (trace m).
Proof.
  destruct m as [[r conv chat mc i] lmc lidx status full tr].
  unfold prologue, bind, read. cbn.
  destruct i; cbn; eexists; (split; [reflexivity|]); cbn;
    rewrite ?turns_begun_snoc; cbn; repeat split; try done; lia.
Qed.


(** ** The loop *)

Section Loop.

Context (inp : inputs).

Lemma bind_Ok {A B} (c : M A) (k : A -> M B) m a m1 :
  c m = Ok a m1 -> bind c k m = k a m1.
Proof. unfold bind. by intros ->. Qed.

Lemma bind_Raised {A B} (c : M A) (k : A -> M B) m e m1 :
  c m = Raised e m1 -> bind c k m = Raised e m1.
Proof. unfold bind. by intros ->. Qed.

Lemma debate_loop_cap script m :
  1000 <= l_message_count m -> debate_loop inp script m = Ok tt m.
Proof.
  intros Hcap. destruct script; cbn [debate_loop];
    by destruct (Z.ltb_spec (l_message_count m) 1000); [lia|].
Qed.

Lemma debate_loop_cons te rest m :
  l_message_count m < 1000 ->
  debate_loop inp (te :: rest) m
  = (r <- read_running (stop_at_guard te) ;;
     if negb r then ret tt
     else
       continue <- turn inp te ;;
       if continue then debate_loop inp rest else ret tt) m.
Proof.
  intros Hlt. cbn [debate_loop].
  by destruct (Z.ltb_spec (l_message_count m) 1000); [|lia].
Qed.

Lemma turn_eq te m ag other :
  Py.index (agents inp) (l_current_agent_index m) = Some ag ->
  Py.index (agents inp) (1 - l_current_agent_index m) = Some other ->
  turn inp te m
  = (emit (Generate (ollama_url_input inp) (model ag)
             (build_prompt ag (stage_rules_text inp) (topic_text inp)
                (build_memory (conversation (ds m)) (memory_size ag)))
             (Options (temperature ag) (top_k ag) [name other +:+ ":"])) ;;
     respond ag (reply te) ;;
     conclude ag (l_current_agent_index m) (stop_at_check te)) m.
Proof.
  intros H1 H2. unfold turn, agent_at.
  unfold bind at 1. unfold read at 1.
  unfold bind at 1. rewrite H1. unfold from_option, ret.
  unfold bind at 1. unfold read at 1.
  unfold bind at 1. rewrite H2. reflexivity.
Qed.

(** A turn that runs to the end of the loop body hands over to the other
    agent, in the local variable and in the dict. *)
Lemma turn_completed te m m' :
  turn inp te m = Ok true m' ->
  (l_current_agent_index m = 0 \/ l_current_agent_index m = 1)
  /\ l_current_agent_index m' = 1 - l_current_agent_index m
  /\ current_agent_index (ds m') = Some (1 - l_current_agent_index m).
Proof.
  destruct (Py.index (agents inp) (l_current_agent_index m)) as [ag|] eqn:E1.
  2:{ unfold turn, agent_at, bind, read. rewrite E1. discriminate. }
  destruct (Py.index (agents inp) (1 - l_current_agent_index m)) as [other|] eqn:E2.
  2:{ unfold turn, agent_at, bind, read. rewrite E1. cbn. rewrite E2. discriminate. }
  rewrite (turn_eq _ _ _ _ E1 E2).
  apply agent_at_range in E1. apply agent_at_range in E2.
  unfold bind at 1. cbn [emit modify].
  unfold bind at 1.
  destruct (respond ag (reply te) _) as [[] m2|e m2|m2]; [|discriminate..].
  destruct (conclude_spec ag (l_current_agent_index m) (stop_at_check te) m2)
    as (m3 & -> & _ & _ & _ & _ & _ & _ & Hnext).
  intros [= Hgo <-]. destruct (Hnext Hgo) as [? ?].
  split; [lia|done].
Qed.

Lemma read_running_true stop_pressed m m0 :
  read_running stop_pressed m = Ok true m0 -> m0 = m.
Proof.
  rewrite read_running_eq. destruct stop_pressed.
  - rewrite andb_false_r. discriminate.
  - by intros [= _ <-].
Qed.

(** [after_turns] follows the loop of the code: the iterations it runs
    are the first iterations of [debate_loop]. *)
Lemma after_turns_debate_loop script rest :
  forall m m',
    after_turns inp script m = Some m' ->
    debate_loop inp (script ++ rest) m = debate_loop inp rest m'.
Proof.
  induction script as [|te script IH]; intros m m'; cbn [after_turns app].
  - by intros [= ->].
  - destruct (Z.ltb_spec (l_message_count m) 1000) as [Hlt|]; [|discriminate].
    destruct (read_running (stop_at_guard te) m) as [[] m0| |] eqn:Hguard;
      [|discriminate..].
    destruct (turn inp te m0) as [[] m1| |] eqn:Hturn; [|discriminate..].
    intros Hrest. rewrite debate_loop_cons by done.
    rewrite (bind_Ok _ _ _ _ _ Hguard). cbn [negb].
    rewrite (bind_Ok _ _ _ _ _ Hturn). by apply IH.
Qed.


End Loop.

(** ** Whole calls of [start_debate] *)

Section Calls.

Context (inp : inputs).

Lemma start_debate_body_runs w st :
  running st = false ->
  reachable w = true ->
  start_debate_body inp w (boot st)
  = (prologue w ;; debate_loop inp (turns w) ;; finish)
      (Machine st 0 0 EmptyString EmptyString [Probe (ollama_url_input inp)]).
Proof.
  intros Hrun Hreach. unfold start_debate_body.
  unfold bind at 1. cbn [read boot ds]. rewrite Hrun.
  unfold bind at 1. cbn [emit modify]. by rewrite Hreach.
Qed.

Lemma start_debate_Ok w st m :
  start_debate_body inp w (boot st) = Ok tt m ->
  start_debate inp w st = (Returned, ds m, trace m).
Proof. unfold start_debate. by intros ->. Qed.

Lemma start_debate_Raised w st e m :
  start_debate_body inp w (boot st) = Raised e m ->
  start_debate inp w st = (Uncaught e, ds m, trace m).
Proof. unfold start_debate. by intros ->. Qed.

(** A turn whose generation call answers, and whose answer holds no
    malformed line, ends without exception; it appends one entry and
    counts one message whether or not stop is pressed meanwhile. *)
Lemma turn_streams te lines m :
  l_current_agent_index m = 0 \/ l_current_agent_index m = 1 ->
  reply te = Some lines ->
  Forall (fun x => x.2 <> Malformed) lines ->
  exists continue m',
    turn inp te m = Ok continue m'
    /\ l_message_count m' = l_message_count m + 1
    /\ turns_begun (trace m') = S (turns_begun (trace m))
    /\ length (conversation (ds m')) = S (length (conversation (ds m)))
    /\ length (chat_history (ds m')) = S (length (chat_history (ds m))).
Proof.
  intros Hslot Hreply Hlines.
  destruct (agent_at_slot inp (l_current_agent_index m)) as [ag Hag]; [done|].
  destruct (agent_at_slot inp (1 - l_current_agent_index m)) as [other Hother]; [lia|].
  rewrite (turn_eq inp _ _ _ _ Hag Hother), Hreply.
  unfold bind at 1. cbn [emit modify].
  match goal with |- context [bind _ _ ?mg] => set (m1 := mg) end.
  destruct (respond_streams ag lines m1 Hlines) as (m2 & Hres & Hn & _ & Hb & Hc & Hh).
  rewrite (bind_Ok _ _ _ _ _ Hres).
  destruct (conclude_spec ag (l_current_agent_index m) (stop_at_check te) m2)
    as (m3 & Hcon & Hn3 & _ & Hb3 & Hc3 & Hh3 & _).
  exists (running (ds m2) && negb (stop_at_check te)), m3.
  split; [done|].
  rewrite Hn3, Hn, Hb3, Hb, Hc3, Hc, Hh3, Hh. subst m1. cbn [trace ds l_message_count].
  rewrite turns_begun_snoc. cbn [is_generate]. repeat split; lia.
Qed.

End Calls.

(** X21.  Once the local message_count is 1000 or more the loop runs no
    further turn, whatever the running flag and whatever the script says
    about the stop button, and the call ends with running false and the
    status ["Debate ended after reaching message limit."].  In particular,
    started with message_count 999, the call runs exactly one turn when its
    generation call answers: the count becomes 1000 and the call ends with
    that status and running false, stop pressed or not during the turn. *)
Theorem message_limit_halts_the_loop (inp : inputs) :
  (forall script m,
     1000 <= l_message_count m ->
     exists m',
       (debate_loop inp script ;; finish) m = Ok tt m'
       /\ turns_begun (trace m') = turns_begun (trace m)
       /\ running (ds m') = false
       /\ message_count (ds m') = l_message_count m
       /\ last_status (trace m') = Some limit_status)
  /\ (forall w st te rest lines,
        running st = false ->
        reachable w = true ->
        message_count st = 999 ->
        (current_agent_index st = None \/ current_agent_index st = Some 0
         \/ current_agent_index st = Some 1) ->
        turns w = te :: rest ->
        stop_at_guard te = false ->
        reply te = Some lines ->
        Forall (fun x => x.2 <> Malformed) lines ->
        exists st' tr,
          start_debate inp w st = (Returned, st', tr)
          /\ message_count st' = 1000
          /\ running st' = false
          /\ last_status tr = Some limit_status
          /\ turns_begun tr = 1%nat
          /\ length (conversation st') = S (length (conversation st))).
Proof.
  assert (Hcap : forall script m,
     1000 <= l_message_count m ->
     exists m',
       (debate_loop inp script ;; finish) m = Ok tt m'
       /\ turns_begun (trace m') = turns_begun (trace m)
       /\ running (ds m') = false
       /\ message_count (ds m') = l_message_count m
       /\ last_status (trace m') = Some limit_status
       /\ conversation (ds m') = conversation (ds m)).
  { intros script m Hm.
    rewrite (bind_Ok _ _ _ _ _ (debate_loop_cap inp script m Hm)).
    destruct (finish_spec m) as (m' & Hfin & Hrun & Hn & _ & Hc & _ & Hb & Hstatus).
    exists m'. repeat split; try done.
    rewrite Hstatus. by destruct (Z.geb_spec (l_message_count m) 1000); [|lia]. }
  split.
  { intros script m Hm. destruct (Hcap script m Hm) as (m' & ? & ? & ? & ? & ? & _).
    by exists m'. }
  intros w st te rest lines Hrun Hreach Hcount Hidx Hturns Hguard Hreply Hlines.
  pose proof (start_debate_body_runs inp w st Hrun Hreach) as Hbody.
  match type of Hbody with _ = _ ?mp => set (m := mp) in * end.
  destruct (prologue_spec w m) as (m0 & Hpro & Hrun0 & Hl0 & _ & Hi0 & _ & Hc0 & _ & Hb0).
  rewrite (bind_Ok _ _ _ _ _ Hpro), Hturns in Hbody.
  assert (l_current_agent_index m0 = 0 \/ l_current_agent_index m0 = 1) as Hslot.
  { rewrite Hi0. subst m. cbn [ds].
    destruct Hidx as [-> | [-> | ->]]; [destruct (coin w)|..]; auto. }
  destruct (turn_streams inp te lines m0 Hslot Hreply Hlines)
    as (continue & m1 & Hturn & Hl1 & Hb1 & Hc1 & _).
  assert (Hloop : debate_loop inp (te :: rest) m0 = Ok tt m1).
  { rewrite debate_loop_cons by (rewrite Hl0; subst m; cbn [ds]; lia).
    unfold bind at 1. rewrite read_running_eq, Hguard, Hrun0. cbn [negb andb].
    rewrite (bind_Ok _ _ _ _ _ Hturn).
    destruct continue; [|done].
    apply debate_loop_cap. rewrite Hl1, Hl0. subst m. cbn [ds]. lia. }
  assert (1000 <= l_message_count m1) as Hm1
    by (rewrite Hl1, Hl0; subst m; cbn [ds]; lia).
  destruct (Hcap [] m1 Hm1) as (m' & Hend & Hb' & Hrun' & Hn' & Hstatus' & Hc').
  rewrite (bind_Ok _ _ _ _ _ (debate_loop_cap inp [] m1 Hm1)) in Hend.
  rewrite (bind_Ok _ _ _ _ _ Hloop), Hend in Hbody.
  exists (ds m'), (trace m').
  split; [by apply start_debate_Ok|].
  rewrite Hn', Hl1, Hl0, Hb', Hb1, Hb0, Hc', Hc1, Hc0. subst m. cbn [ds trace].
  repeat split; try done. lia.
Qed.

Lemma message_limit_halts_the_loop_example :
  (exists m',
     (debate_loop form_defaults [failed_call] ;; finish)
       (Machine (DebateState true [] [] 1000 (Some 0)) 1000 0 started_status EmptyString [])
     = Ok tt m'
     /\ running (ds m') = false
     /\ last_status (trace m') = Some limit_status)
  /\ (exists st' tr,
        start_debate form_defaults
          (World true false [undisturbed [Record_ (Some "Last word.")]])
          (DebateState false [] [] 999 None)
        = (Returned, st', tr)
        /\ message_count st' = 1000
        /\ running st' = false
        /\ last_status tr = Some limit_status
        /\ turns_begun tr = 1%nat).
Proof.
  destruct (message_limit_halts_the_loop form_defaults) as [Hcap Hlast].
  split.
  - destruct (Hcap [failed_call]
                (Machine (DebateState true [] [] 1000 (Some 0)) 1000 0
                   started_status EmptyString []))
      as (m' & Hrun & _ & Hoff & _ & Hstatus); [cbn; lia|].
    exists m'. split; [exact Hrun|]. split; [exact Hoff | exact Hstatus].
  - destruct (Hlast (World true false [undisturbed [Record_ (Some "Last word.")]])
                (DebateState false [] [] 999 None)
                (undisturbed [Record_ (Some "Last word.")]) []
                [(false, Record_ (Some "Last word."))])
      as (st' & tr & Hrun & Hn & Hoff & Hstatus & Hone & _).
    + reflexivity.
    + reflexivity.
    + reflexivity.
    + left. reflexivity.
    + reflexivity.
    + reflexivity.
    + reflexivity.
    + repeat constructor. discriminate.
    + exists st', tr. repeat split; assumption.
Defined.

Lemma failed_turn_is_not_counted inp stop_before stop_after m :
  l_message_count (machine_of (turn inp (TurnScript stop_before None stop_after) m))
  = l_message_count m.
Proof.
  destruct (Py.index (agents inp) (l_current_agent_index m)) as [ag|] eqn:E1.
  2:{ unfold turn, agent_at, bind, read. rewrite E1. done. }
  destruct (Py.index (agents inp) (1 - l_current_agent_index m)) as [other|] eqn:E2.
  2:{ unfold turn, agent_at, bind, read. rewrite E1. cbn. rewrite E2. done. }
  rewrite (turn_eq inp _ _ _ _ E1 E2). cbn [reply stop_at_check].
  unfold bind at 1. cbn [emit modify].
  match goal with |- context [bind _ _ ?mg] => set (m1 := mg) end.
  pose proof (frame_respond_failed ag m1) as [Hn _ _ _ _ _ _ _].
  change (l_message_count m1) with (l_message_count m) in Hn.
  unfold bind. destruct (respond ag None m1) as [[] m2|e m2|m2];
    cbn [machine_of] in *; try done.
  destruct (conclude_spec ag (l_current_agent_index m) stop_after m2)
    as (m3 & -> & Hn3 & _). cbn [machine_of]. congruence.
Qed.

(** C7, the code on the failing input.  A turn whose generation call
    fails is never counted, whatever the machine it runs on.  Started with
    message_count 999 on a session with one earlier entry, a call whose
    one more turn is such a turn runs the loop body to its end (the status
    ["Climate Scientist finished responding."] is yielded and the speaker
    toggled, the turn C4 counts as completed) and goes back to the loop
    condition with message_count still 999: the loop asks for a further
    turn, and when stop is then pressed the call returns with message_count
    999 and that last status, not the one of the message limit. *)
Theorem failed_call_at_999_misses_the_limit :
  (forall inp stop_before stop_after m,
     l_message_count (machine_of (turn inp (TurnScript stop_before None stop_after) m))
     = l_message_count m)
  /\ (start_debate form_defaults (World true false [failed_call]) one_turn_at_999).1
     = (Unscripted,
        DebateState true
          [Message "Conservative Farmer" "Error generating response."]
          [ChatMessage "assistant" "Climate Scientist: Error generating response."]
          999 (Some 1))
  /\ completed_turns
       (start_debate form_defaults (World true false [failed_call]) one_turn_at_999).2
     = 1%nat
  /\ (start_debate form_defaults (World true false [failed_call; stop_now]) one_turn_at_999).1
     = (Returned,
        DebateState false
          [Message "Conservative Farmer" "Error generating response."]
          [ChatMessage "assistant" "Climate Scientist: Error generating response."]
          999 (Some 1))
  /\ last_status
       (start_debate form_defaults (World true false [failed_call; stop_now]) one_turn_at_999).2
     = Some "Climate Scientist finished responding."
  /\ Some "Climate Scientist finished responding." <> Some limit_status.
Proof.
  split; [exact failed_turn_is_not_counted|].
  repeat split; try (vm_compute; reflexivity). discriminate.
Qed.

(** ** Lines that carry no fragment, and lines that do not parse *)

Lemma stream_loop_skips ag pre l post :
  l = Blank \/ l = Record_ None ->
  forall m,
    stream_loop ag (pre ++ (false, l) :: post) m = stream_loop ag (pre ++ post) m.
Proof.
  intros Hl. induction pre as [|[stop_pressed l'] pre IH]; intros m; cbn [app stream_loop].
  - unfold bind at 1. rewrite read_running_eq, andb_true_r.
    destruct (running (ds m)) eqn:Hrun; cbn [negb].
    + by destruct Hl as [-> | ->].
    + symmetry. by apply stream_loop_stopped.
  - unfold bind at 1 3. destruct (read_running stop_pressed m) as [[] m1| |]; [|done..].
    cbn [negb]. unfold bind.
    match goal with
    | |- match ?c with _ => _ end = _ => destruct c as [? m2| |]
    end; [apply IH | done..].
Qed.

Lemma stream_loop_malformed ag cl hl role pre post :
  Forall (fun x => x.1 = false /\ x.2 <> Malformed) pre ->
  forall m,
    streaming ag cl hl role m ->
    running (ds m) = true ->
    exists m',
      stream_loop ag (pre ++ (false, Malformed) :: post) m = Raised JSONDecodeError m'
      /\ running (ds m') = true.
Proof.
  induction 1 as [|[stop_pressed l] pre [Hquiet Hl] _ IH]; intros m Hm Hrun;
    cbn [app stream_loop].
  - exists m. unfold bind at 1. by rewrite read_running_eq, Hrun.
  - cbn in Hquiet, Hl. subst stop_pressed.
    unfold bind at 1. rewrite read_running_eq, Hrun. cbn [andb negb].
    destruct l as [| |[p|]]; [| done | |].
    + unfold bind at 1. cbn [ret]. by apply IH.
    + destruct (absorb_streaming ag cl hl role p m Hm) as (m1 & Habs & Hs1 & _ & Hrun1).
      rewrite (bind_Ok _ _ _ _ _ Habs). apply IH; [done | congruence].
    + unfold bind at 1. cbn [ret]. by apply IH.
Qed.

Lemma turn_malformed inp te pre post m :
  l_current_agent_index m = 0 \/ l_current_agent_index m = 1 ->
  running (ds m) = true ->
  reply te = Some (pre ++ (false, Malformed) :: post) ->
  Forall (fun x => x.1 = false /\ x.2 <> Malformed) pre ->
  exists m',
    turn inp te m = Raised JSONDecodeError m'
    /\ running (ds m') = true
    /\ turns_begun (trace m') = S (turns_begun (trace m)).
Proof.
  intros Hslot Hrun Hreply Hpre.
  destruct (agent_at_slot inp (l_current_agent_index m)) as [ag Hag]; [done|].
  destruct (agent_at_slot inp (1 - l_current_agent_index m)) as [other Hother]; [lia|].
  rewrite (turn_eq _ _ _ _ _ Hag Hother), Hreply.
  unfold bind at 1. cbn [emit modify].
  match goal with |- context [bind (respond _ _) _ ?mg] => set (m1 := mg) end.
  destruct (stream_loop_malformed ag _ _ _ pre post Hpre _
              (placeholder_streaming ag m1))
    as (m2 & Hraise & Hrun2); [subst m1; exact Hrun|].
  pose proof (frame_stream_loop ag (pre ++ (false, Malformed) :: post)
                (placeholder ag m1)) as Hfr.
  rewrite Hraise in Hfr. cbn [machine_of] in Hfr.
  exists m2. split; [|split; [done|]].
  - apply bind_Raised. by rewrite respond_some_eq, Hraise.
  - rewrite (fr_turns_begun _ _ Hfr). subst m1. cbn [placeholder trace].
    rewrite turns_begun_snoc. cbn [is_generate]. lia.
Qed.

Lemma undisturbed_turn_completes inp lines m :
  l_current_agent_index m = 0 \/ l_current_agent_index m = 1 ->
  running (ds m) = true ->
  Forall (fun l => l <> Malformed) lines ->
  exists m',
    turn inp (undisturbed lines) m = Ok true m'
    /\ l_message_count m' = l_message_count m + 1
    /\ running (ds m') = true
    /\ (l_current_agent_index m' = 0 \/ l_current_agent_index m' = 1)
    /\ turns_begun (trace m') = S (turns_begun (trace m)).
Proof.
  intros Hslot Hrun Hlines.
  destruct (agent_at_slot inp (l_current_agent_index m)) as [ag Hag]; [done|].
  destruct (agent_at_slot inp (1 - l_current_agent_index m)) as [other Hother]; [lia|].
  assert (Forall (fun x : bool * line => x.2 <> Malformed) (map (pair false) lines)) as Hparse
    by (apply Forall_fmap; eapply Forall_impl; [exact Hlines | done]).
  assert (Forall (fun x : bool * line => x.1 = false) (map (pair false) lines)) as Hquiet
    by (apply Forall_fmap; eapply Forall_impl; [exact Hlines | done]).
  destruct (turn_streams inp (undisturbed lines) _ m Hslot eq_refl Hparse)
    as (continue & m' & Hturn & Hn & Hb & _).
  assert (continue = true /\ running (ds m') = true) as [-> Hrun'].
  { rewrite (turn_eq _ _ _ _ _ Hag Hother) in Hturn.
    unfold bind at 1 in Hturn. cbn [emit modify] in Hturn.
    match type of Hturn with context [bind (respond _ _) _ ?mg] => set (m1 := mg) in Hturn end.
    cbn [undisturbed reply stop_at_check] in Hturn.
    destruct (stream_loop_returns ag _ _ _ _ Hparse _ (placeholder_streaming ag m1))
      as (m2 & Hloop & _ & Hon).
    destruct (Hon Hquiet) as [Hrun2 _]; [subst m1; exact Hrun|].
    unfold bind at 1 in Hturn. rewrite respond_some_eq, Hloop in Hturn.
    match type of Hturn with conclude _ _ _ ?mg = _ => set (m3 := mg) in Hturn end.
    destruct (conclude_spec ag (l_current_agent_index m) false m3)
      as (m4 & Hcon & _ & _ & _ & _ & _ & Hrun4 & _).
    rewrite Hcon in Hturn. injection Hturn as <- <-.
    subst m3. cbn [set_full_response ds] in *. rewrite Hrun4, Hrun2. done. }
  destruct (turn_completed inp _ _ _ Hturn) as (_ & Hidx & _).
  exists m'. repeat split; try done. lia.
Qed.

Lemma undisturbed_turns_complete inp liness :
  forall m,
    l_current_agent_index m = 0 \/ l_current_agent_index m = 1 ->
    running (ds m) = true ->
    l_message_count m + Z.of_nat (length liness) <= 1000 ->
    Forall (Forall (fun l => l <> Malformed)) liness ->
    exists m',
      (forall rest,
         debate_loop inp (map undisturbed liness ++ rest) m = debate_loop inp rest m')
      /\ l_message_count m' = l_message_count m + Z.of_nat (length liness)
      /\ running (ds m') = true
      /\ (l_current_agent_index m' = 0 \/ l_current_agent_index m' = 1)
      /\ turns_begun (trace m') = (turns_begun (trace m) + length liness)%nat.
Proof.
  induction liness as [|lines liness IH]; intros m Hslot Hrun Hcount Hparse.
  - exists m. cbn. repeat split; try done; lia.
  - apply Forall_cons in Hparse as [Hlines Hparse]. cbn [length] in Hcount.
    destruct (undisturbed_turn_completes inp lines m Hslot Hrun Hlines)
      as (m1 & Hturn & Hn1 & Hrun1 & Hslot1 & Hb1).
    destruct (IH m1 Hslot1 Hrun1 ltac:(lia) Hparse) as (m' & Hrest & Hn & Hrun' & Hslot' & Hb).
    exists m'. split; [|cbn [length]; repeat split; try done; lia].
    intros rest. cbn [map app].
    rewrite debate_loop_cons by lia.
    unfold bind at 1. rewrite read_running_eq, Hrun.
    cbn [undisturbed stop_at_guard negb andb].
    rewrite (bind_Ok _ _ _ _ _ Hturn). apply Hrest.
Qed.

(** C2, as the code has it.  A line that carries no fragment (an empty
    line, or a JSON record without a ['response'] key) is skipped:
    consuming the stream with or without it gives the same result.  A
    non-empty line that does not parse is not skipped, in whichever turn
    its stream is consumed: when the stream is read up to it, [json.loads]
    raises and nothing catches the exception.  From every machine at the
    loop condition, the turn, the loop and what follows the loop end with
    the exception in the middle of that turn; and a call of [start_debate]
    whose earlier turns were read to their end ends with it in the turn
    that holds the line.  The dict is left marked as running when stop is
    not pressed in what remains of that turn. *)
Theorem blank_lines_are_skipped_malformed_lines_raise :
  (forall ag pre l post m,
     l = Blank \/ l = Record_ None ->
     stream_loop ag (pre ++ (false, l) :: post) m = stream_loop ag (pre ++ post) m)
  /\ (forall inp te rest pre post m,
        l_current_agent_index m = 0 \/ l_current_agent_index m = 1 ->
        running (ds m) = true ->
        l_message_count m < 1000 ->
        stop_at_guard te = false ->
        reply te = Some (pre ++ (false, Malformed) :: post) ->
        Forall (fun x => x.1 = false /\ x.2 <> Malformed) pre ->
        exists m',
          turn inp te m = Raised JSONDecodeError m'
          /\ debate_loop inp (te :: rest) m = Raised JSONDecodeError m'
          /\ (debate_loop inp (te :: rest) ;; finish) m = Raised JSONDecodeError m'
          /\ turns_begun (trace m') = S (turns_begun (trace m))
          /\ (existsb pressed_in (te :: rest) = false -> running (ds m') = true))
  /\ (forall inp w st liness te rest pre post,
        running st = false ->
        reachable w = true ->
        message_count st + Z.of_nat (length liness) < 1000 ->
        (current_agent_index st = None \/ current_agent_index st = Some 0
         \/ current_agent_index st = Some 1) ->
        turns w = map undisturbed liness ++ te :: rest ->
        Forall (Forall (fun l => l <> Malformed)) liness ->
        stop_at_guard te = false ->
        reply te = Some (pre ++ (false, Malformed) :: post) ->
        Forall (fun x => x.1 = false /\ x.2 <> Malformed) pre ->
        exists st' tr,
          start_debate inp w st = (Uncaught JSONDecodeError, st', tr)
          /\ turns_begun tr = S (length liness)
          /\ (stop_is_pressed w = false -> running st' = true)).
Proof.
  assert (Hany : forall inp te rest pre post m,
        l_current_agent_index m = 0 \/ l_current_agent_index m = 1 ->
        running (ds m) = true ->
        l_message_count m < 1000 ->
        stop_at_guard te = false ->
        reply te = Some (pre ++ (false, Malformed) :: post) ->
        Forall (fun x => x.1 = false /\ x.2 <> Malformed) pre ->
        exists m',
          turn inp te m = Raised JSONDecodeError m'
          /\ debate_loop inp (te :: rest) m = Raised JSONDecodeError m'
          /\ (debate_loop inp (te :: rest) ;; finish) m = Raised JSONDecodeError m'
          /\ turns_begun (trace m') = S (turns_begun (trace m))
          /\ running (ds m') = true).
  { intros inp te rest pre post m Hslot Hrun Hcount Hguard Hreply Hpre.
    destruct (turn_malformed inp te pre post m Hslot Hrun Hreply Hpre)
      as (m' & Hturn & Hrun' & Hb').
    assert (debate_loop inp (te :: rest) m = Raised JSONDecodeError m') as Hloop.
    { rewrite debate_loop_cons by done.
      unfold bind at 1. rewrite read_running_eq, Hguard, Hrun. cbn [negb andb].
      by apply bind_Raised. }
    exists m'. repeat split; try done. by apply bind_Raised. }
  split; [intros; by apply stream_loop_skips|]. split.
  { intros inp te rest pre post m Hslot Hrun Hcount Hguard Hreply Hpre.
    destruct (Hany inp te rest pre post m Hslot Hrun Hcount Hguard Hreply Hpre)
      as (m' & ? & ? & ? & ? & ?).
    exists m'. repeat split; done. }
  intros inp w st liness te rest pre post Hrun Hreach Hcount Hidx Hturns Hparse
    Hguard Hreply Hpre.
  pose proof (start_debate_body_runs inp w st Hrun Hreach) as Hbody.
  match type of Hbody with _ = _ ?mp => set (m := mp) in * end.
  destruct (prologue_spec w m) as (m0 & Hpro & Hrun0 & Hl0 & _ & Hi0 & _ & _ & _ & Hb0).
  rewrite (bind_Ok _ _ _ _ _ Hpro), Hturns in Hbody.
  assert (l_current_agent_index m0 = 0 \/ l_current_agent_index m0 = 1) as Hslot.
  { rewrite Hi0. subst m. cbn [ds].
    destruct Hidx as [-> | [-> | ->]]; [destruct (coin w)|..]; auto. }
  assert (l_message_count m0 = message_count st) as Hl0' by (rewrite Hl0; by subst m).
  destruct (undisturbed_turns_complete inp liness m0 Hslot Hrun0 ltac:(lia) Hparse)
    as (m1 & Hfirst & Hn1 & Hrun1 & Hslot1 & Hb1).
  destruct (Hany inp te rest pre post m1 Hslot1 Hrun1 ltac:(lia) Hguard Hreply Hpre)
    as (m' & _ & _ & Hloop & Hb' & Hrun').
  unfold bind at 1 in Hloop. unfold bind at 1 in Hbody.
  rewrite Hfirst in Hbody.
  destruct (debate_loop inp (te :: rest) m1) as [[] m2|e m2|m2]; [| |discriminate].
  { destruct (finish_spec m2) as (m3 & Hfin & _). rewrite Hfin in Hloop. discriminate. }
  injection Hloop as -> ->.
  exists (ds m'), (trace m').
  split; [by apply start_debate_Raised|]. split; [|done].
  rewrite Hb', Hb1, Hb0. by subst m.
Qed.

Lemma blank_lines_are_skipped_malformed_lines_raise_example :
  stream_loop (Agent "A" "" "llama3" 1%float 40 2000 "")
    ([(false, Record_ (Some "x"))] ++ (false, Blank) :: [(false, Record_ (Some "y"))])
    (placeholder (Agent "A" "" "llama3" 1%float 40 2000 "") (boot (DebateState true [] [] 0 (Some 0))))
  = stream_loop (Agent "A" "" "llama3" 1%float 40 2000 "")
      ([(false, Record_ (Some "x"))] ++ [(false, Record_ (Some "y"))])
      (placeholder (Agent "A" "" "llama3" 1%float 40 2000 "") (boot (DebateState true [] [] 0 (Some 0))))
  /\ (exists m',
        (debate_loop form_defaults
           [TurnScript false
              (Some ([(false, Record_ (Some "x"))] ++ (false, Malformed)
                       :: [(false, Record_ (Some "y"))]))
              false] ;; finish)
          (Machine (DebateState true [Message "Climate Scientist" "Hi."]
                      [ChatMessage "user" "Climate Scientist: Hi."] 1 (Some 1))
             1 1 EmptyString EmptyString [])
        = Raised JSONDecodeError m'
        /\ running (ds m') = true)
  /\ exists st' tr,
       start_debate form_defaults
         (World true false
            (map undisturbed [[Record_ (Some "Hi.")]; [Blank; Record_ (Some "No.")]]
             ++ [TurnScript false
                   (Some ([(false, Record_ (Some "x"))] ++ (false, Malformed)
                            :: [(false, Record_ (Some "y"))]))
                   false]))
         initial_state
       = (Uncaught JSONDecodeError, st', tr)
       /\ turns_begun tr = 3%nat
       /\ running st' = true.
Proof.
  destruct blank_lines_are_skipped_malformed_lines_raise as (Hskip & Hany & Hcall).
  split; [|split].
  - apply Hskip. left. reflexivity.
  - destruct (Hany form_defaults
                (TurnScript false
                   (Some ([(false, Record_ (Some "x"))] ++ (false, Malformed)
                            :: [(false, Record_ (Some "y"))]))
                   false)
                [] [(false, Record_ (Some "x"))] [(false, Record_ (Some "y"))]
                (Machine (DebateState true [Message "Climate Scientist" "Hi."]
                            [ChatMessage "user" "Climate Scientist: Hi."] 1 (Some 1))
                   1 1 EmptyString EmptyString []))
      as (m' & _ & _ & Hraise & _ & Hon).
    + right. reflexivity.
    + reflexivity.
    + reflexivity.
    + reflexivity.
    + reflexivity.
    + repeat constructor. discriminate.
    + exists m'. split; [exact Hraise|]. apply Hon. reflexivity.
  - destruct (Hcall form_defaults
                (World true false
                   (map undisturbed [[Record_ (Some "Hi.")]; [Blank; Record_ (Some "No.")]]
                    ++ [TurnScript false
                          (Some ([(false, Record_ (Some "x"))] ++ (false, Malformed)
                                   :: [(false, Record_ (Some "y"))]))
                          false]))
                initial_state
                [[Record_ (Some "Hi.")]; [Blank; Record_ (Some "No.")]]
                (TurnScript false
                   (Some ([(false, Record_ (Some "x"))] ++ (false, Malformed)
                            :: [(false, Record_ (Some "y"))]))
                   false)
                [] [(false, Record_ (Some "x"))] [(false, Record_ (Some "y"))])
      as (st' & tr & Hrun & Hb & Hon).
    + reflexivity.
    + reflexivity.
    + reflexivity.
    + left. reflexivity.
    + reflexivity.
    + repeat constructor; discriminate.
    + reflexivity.
    + reflexivity.
    + repeat constructor. discriminate.
    + exists st', tr. split; [exact Hrun|]. split; [exact Hb|].
      apply Hon. reflexivity.
Defined.

(** C2 as stated fails: with a line that does not parse in front of a
    well-formed record, the call ends with the uncaught exception of
    [json.loads]; the record behind it is never consumed, the entry of
    the turn keeps its empty placeholder content, and the dict is left
    marked as running. *)
Lemma malformed_line_is_fatal :
  (start_debate form_defaults
     (World true false [undisturbed [Malformed; Record_ (Some "late")]; stop_now])
     initial_state).1
  = (Uncaught JSONDecodeError,
     DebateState true
       [Message "Climate Scientist" EmptyString]
       [ChatMessage "user" "Climate Scientist: "]
       0 (Some 0)).
Proof. vm_compute. reflexivity. Qed.

(** C1, the code on the failing input.  When the generation call fails,
    the [else] branch appends no entry and does not count the turn:
    message_count and the number of entries of both transcripts are as
    before.  On a session with one earlier turn, the sentinel replaces the
    content of that earlier entry, spoken by the other agent, and
    message_count stays 1 while the speaker is toggled. *)
Theorem failed_call_overwrites_previous_entry :
  (forall ag m,
     l_message_count (machine_of (respond ag None m)) = l_message_count m
     /\ length (conversation (ds (machine_of (respond ag None m))))
        = length (conversation (ds m))
     /\ length (chat_history (ds (machine_of (respond ag None m))))
        = length (chat_history (ds m)))
  /\ (start_debate form_defaults (World true false [failed_call; stop_now]) after_one_turn).1
     = (Returned,
        DebateState false
          [Message "Conservative Farmer" "Error generating response."]
          [ChatMessage "assistant" "Climate Scientist: Error generating response."]
          1 (Some 1)).
Proof.
  split; [|vm_compute; reflexivity].
  intros ag m. destruct (frame_respond_failed ag m). done.
Qed.

(** When the stream ends normally, what the entry of the turn holds is
    the concatenation of the fragments as received; only the local
    variable [full_response] is stripped. *)
Lemma respond_stores_unstripped ag lines m :
  Forall (fun x => x.1 = false /\ x.2 <> Malformed) lines ->
  running (ds m) = true ->
  exists m',
    respond ag (Some lines) m = Ok tt m'
    /\ last (conversation (ds m'))
       = Some (Message (name ag) (Py.join (fragments lines)))
    /\ chat_content <$> last (chat_history (ds m'))
       = Some (name ag +:+ ": " +:+ Py.join (fragments lines))
    /\ full_response m' = Py.strip (Py.join (fragments lines)).
Proof.
  intros Hlines Hrun. rewrite respond_some_eq.
  destruct (stream_loop_returns ag _ _ _ lines
              (Forall_impl _ _ _ Hlines (fun x H => proj2 H)) _
              (placeholder_streaming ag m))
    as (m1 & -> & [Hc Hh] & Hfull).
  destruct Hfull as [_ Hfull];
    [exact (Forall_impl _ _ _ Hlines (fun x H => proj1 H)) | exact Hrun |].
  cbn [placeholder full_response] in Hfull. cbn [String.append] in Hfull.
  eexists. split; [reflexivity|].
  destruct m1 as [[r conv chat mc idx] lmc lidx status full tr]. cbn in *. subst.
  by rewrite !last_snoc.
Qed.

(** ** Start, stop and reset *)

(** C8.  When [running] is already true, [start_debate] returns at once:
    the dict is left exactly as it was (conversation, chat_history,
    message_count, current_agent_index and running), the only value yielded
    changes neither the chat nor the status, and no turn is begun. *)
Theorem start_while_running_is_noop (inp : inputs) (w : world) (st : debate_state) :
  running st = true ->
  start_debate inp w st = (Returned, st, [Yield (UiUpdate None None false true)])
  /\ turns_begun (start_debate inp w st).2 = 0%nat.
Proof.
  intros Hrun.
  assert (start_debate inp w st = (Returned, st, [Yield (UiUpdate None None false true)])) as ->.
  { unfold start_debate, start_debate_body, bind, read, boot. cbn. by rewrite Hrun. }
  split; reflexivity.
Qed.

Lemma start_while_running_is_noop_example :
  start_debate form_defaults (World true true [failed_call])
    (DebateState true [] [] 0 (Some 1))
  = (Returned, DebateState true [] [] 0 (Some 1), [Yield (UiUpdate None None false true)]).
Proof.
  apply (start_while_running_is_noop form_defaults (World true true [failed_call])
           (DebateState true [] [] 0 (Some 1))).
  reflexivity.
Defined.

(** C5.  When the connectivity probe fails, [start_debate] returns before
    any turn: the dict is left exactly as it was, [running] still false,
    and the one value yielded carries the status message. *)
Theorem unreachable_start_changes_nothing (inp : inputs) (w : world) (st : debate_state) :
  running st = false ->
  reachable w = false ->
  start_debate inp w st
  = (Returned, st,
     [Probe (ollama_url_input inp);
      Yield (UiUpdate (Some (chat_history st)) (Some unreachable_status) true false)])
  /\ turns_begun (start_debate inp w st).2 = 0%nat
  /\ last_status (start_debate inp w st).2 = Some unreachable_status.
Proof.
  intros Hrun Hprobe.
  assert (start_debate inp w st
          = (Returned, st,
             [Probe (ollama_url_input inp);
              Yield (UiUpdate (Some (chat_history st)) (Some unreachable_status) true false)]))
    as ->.
  { unfold start_debate, start_debate_body, bind, read, boot. cbn.
    rewrite Hrun. cbn. by rewrite Hprobe. }
  repeat split.
Qed.

Lemma unreachable_start_changes_nothing_example :
  start_debate form_defaults (World false true [failed_call]) after_one_turn
  = (Returned, after_one_turn,
     [Probe "http://localhost:11434";
      Yield (UiUpdate (Some (chat_history after_one_turn)) (Some unreachable_status) true false)]).
Proof.
  apply (unreachable_start_changes_nothing form_defaults
           (World false true [failed_call]) after_one_turn); reflexivity.
Defined.

(** C9.  Whatever the dict held, after [reset_debate] the conversation and
    the chat history are empty, message_count is 0, current_agent_index is
    unset and running is false. *)
Theorem reset_clears_everything (st : debate_state) :
  let st' := (reset_debate st).1 in
  conversation st' = []
  /\ chat_history st' = []
  /\ message_count st' = 0
  /\ current_agent_index st' = None
  /\ running st' = false.
Proof. repeat split. Qed.

(** ** Runs on concrete scripts *)

(** C10, the code on the failing input.  In a fresh session whose first
    generation call fails, the [else] branch reads [chat_history[-1]] of
    an empty list: the call ends with an uncaught [IndexError], the dict
    still marked as running. *)
Theorem first_call_failure_raises_IndexError
    (inp : inputs) (c flag : bool) (rest : list turn_script) :
  (start_debate inp (World true c (TurnScript false None flag :: rest)) initial_state).1
  = (Uncaught IndexError, DebateState true [] [] 0 (Some (Z.b2z c))).
Proof. destruct c; reflexivity. Qed.

(** C6, the code on the failing input.  The fragments [" Hel"] and
    ["lo "] arrive and the stream ends normally.  The content stored in the
    conversation entry, and shown after the name in the chat entry, is the
    concatenation as received, with its surrounding blanks, where the
    stripped text would be ["Hello"]. *)
Theorem stored_content_is_not_stripped :
  (start_debate form_defaults
     (World true false [undisturbed [Record_ (Some " Hel"); Record_ (Some "lo ")]; stop_now])
     initial_state).1
  = (Returned,
     DebateState false
       [Message "Climate Scientist" " Hello "]
       [ChatMessage "user" "Climate Scientist:  Hello "]
       1 (Some 1))
  /\ Py.strip " Hello " = "Hello".
Proof. split; vm_compute; reflexivity. Qed.

(** * Further properties of the controller *)

(** ** Counters and transcripts move together *)

Lemma alter_fmap_fixed {A B} (g : A -> B) (f : A -> A) :
  (forall x, g (f x) = g x) ->
  forall (l : list A) (i : nat), map g (alter f i l) = map g l.
Proof.
  intros Hg l. induction l as [|a l IH]; intros [|i]; cbn; try done.
  - by rewrite Hg.
  - f_equal. apply IH.
Qed.

Lemma update_last_fmap {A B} (g : A -> B) (f : A -> A) (l l' : list A) :
  (forall x, g (f x) = g x) ->
  Py.update_last f l = Some l' ->
  map g l' = map g l.
Proof.
  intros Hg. unfold Py.update_last. destruct l as [|a l]; [discriminate|].
  intros [= <-]. by apply alter_fmap_fixed.
Qed.

Lemma grows_refl m : grows m m.
Proof. constructor; try done; lia. Qed.

Lemma grows_trans m1 m2 m3 : grows m1 m2 -> grows m2 m3 -> grows m1 m3.
Proof.
  intros [] []. constructor; try lia; by etrans.
Qed.

Lemma grows_bind {A B} (c : M A) (k : A -> M B) :
  (forall m, grows m (machine_of (c m))) ->
  (forall a m, grows m (machine_of (k a m))) ->
  forall m, grows m (machine_of (bind c k m)).
Proof.
  intros Hc Hk m. unfold bind. specialize (Hc m).
  destruct (c m) as [a m'|e m'|m']; cbn in *; [|done..].
  eapply grows_trans; [exact Hc | apply Hk].
Qed.

Lemma grows_ret {A} (a : A) m : grows m (machine_of (ret a m)).
Proof. apply grows_refl. Qed.

Lemma grows_raise {A} e m : grows m (machine_of (raise (A:=A) e m)).
Proof. apply grows_refl. Qed.

Lemma grows_read {A} (f : machine -> A) m : grows m (machine_of (read f m)).
Proof. apply grows_refl. Qed.

Lemma grows_from_option {A} e (o : option A) m : grows m (machine_of (from_option e o m)).
Proof. destruct o; apply grows_refl. Qed.

Lemma grows_set_status_text s m : grows m (machine_of (modify (set_status_text s) m)).
Proof. constructor; cbn; try done; lia. Qed.

Lemma grows_set_full_response s m : grows m (machine_of (modify (set_full_response s) m)).
Proof. constructor; cbn; try done; lia. Qed.

Lemma grows_set_l_current_agent_index i m :
  grows m (machine_of (modify (set_l_current_agent_index i) m)).
Proof. constructor; cbn; try done; lia. Qed.

Lemma grows_set_running b m : grows m (machine_of (modify (with_ds (set_running b)) m)).
Proof. constructor; cbn; try done; lia. Qed.

Lemma grows_emit e m : grows m (machine_of (emit e m)).
Proof. constructor; cbn; try done; lia. Qed.

Lemma grows_yield_chat a b m : grows m (machine_of (yield_chat a b m)).
Proof. constructor; cbn; try done; lia. Qed.

Lemma grows_read_running stop_pressed m : grows m (machine_of (read_running stop_pressed m)).
Proof. destruct stop_pressed; constructor; cbn; try done; lia. Qed.

Lemma grows_write_back m : grows m (machine_of (write_back m)).
Proof. constructor; cbn; try done; lia. Qed.

Lemma grows_set_last_chat_content v m : grows m (machine_of (set_last_chat_content v m)).
Proof.
  unfold set_last_chat_content, bind, from_option.
  destruct (Py.update_last _ _) as [h|] eqn:E; cbn; [|apply grows_refl].
  constructor; cbn; try done; try lia.
  - apply update_last_length in E. lia.
  - pose proof (fun Hg => update_last_fmap chat_role _ _ _ Hg E) as Hm.
    by rewrite Hm.
Qed.

Lemma grows_set_last_conversation_content v m :
  grows m (machine_of (set_last_conversation_content v m)).
Proof.
  unfold set_last_conversation_content, bind, from_option.
  destruct (Py.update_last _ _) as [h|] eqn:E; cbn; [|apply grows_refl].
  constructor; cbn; try done; try lia.
  - apply update_last_length in E. lia.
  - pose proof (fun Hg => update_last_fmap msg_name _ _ _ Hg E) as Hm.
    by rewrite Hm.
Qed.

Ltac grows_step :=
  first [ apply grows_ret | apply grows_raise | apply grows_read
        | apply grows_from_option
        | apply grows_set_full_response | apply grows_set_status_text
        | apply grows_set_l_current_agent_index | apply grows_set_running
        | apply grows_set_last_chat_content
        | apply grows_set_last_conversation_content
        | apply grows_yield_chat | apply grows_emit | apply grows_read_running
        | apply grows_write_back
        | cbv zeta; apply grows_bind; intros ].

Lemma grows_absorb ag p m : grows m (machine_of (absorb ag p m)).
Proof. unfold absorb. repeat grows_step. Qed.

Lemma grows_stream_loop ag lines : forall m, grows m (machine_of (stream_loop ag lines m)).
Proof.
  induction lines as [|[stop_pressed l] lines IH]; [apply grows_refl|].
  cbn [stream_loop]. apply grows_bind; [apply grows_read_running|].
  intros r. destruct r; cbn [negb]; [|apply grows_ret].
  apply grows_bind; [|intros; apply IH].
  destruct l as [| |[p|]]; first [apply grows_ret | apply grows_raise | apply grows_absorb].
Qed.

Lemma grows_placeholder ag m : grows m (placeholder ag m).
Proof.
  constructor; cbn; rewrite ?length_app, ?map_app; cbn; try lia;
    by apply prefix_app_r.
Qed.

Lemma grows_respond ag r m : grows m (machine_of (respond ag r m)).
Proof.
  destruct r as [lines|].
  - rewrite respond_some_eq.
    pose proof (grows_stream_loop ag lines (placeholder ag m)) as Hs.
    destruct (stream_loop ag lines (placeholder ag m)) as [[] m'|e m'|m']; cbn in *;
      (eapply grows_trans; [apply grows_placeholder|]); [|done..].
    eapply grows_trans; [exact Hs|]. apply grows_set_full_response.
  - unfold respond. repeat grows_step.
Qed.

Lemma grows_conclude ag idx stop_pressed m :
  grows m (machine_of (conclude ag idx stop_pressed m)).
Proof.
  unfold conclude. apply grows_bind; [apply grows_read_running|].
  intros r. destruct r; cbn [negb]; repeat grows_step.
Qed.

Lemma grows_turn inp te m : grows m (machine_of (turn inp te m)).
Proof.
  unfold turn, agent_at.
  repeat first [ apply grows_respond | apply grows_conclude | grows_step ].
Qed.

Lemma grows_debate_loop inp script : forall m, grows m (machine_of (debate_loop inp script m)).
Proof.
  induction script as [|te script IH]; intros m; cbn [debate_loop].
  - destruct (negb _); [apply grows_refl|]. destruct (running _); apply grows_refl.
  - destruct (negb _); [apply grows_refl|].
    apply grows_bind; [apply grows_read_running|].
    intros r. destruct r; cbn [negb]; [|apply grows_ret].
    apply grows_bind; [intros; apply grows_turn|].
    intros continue m1. destruct continue; [apply IH | apply grows_ret].
Qed.

Lemma grows_finish m : grows m (machine_of (finish m)).
Proof.
  unfold finish. apply grows_bind; [apply grows_read|]. intros n m1.
  destruct (n >=? 1000); repeat grows_step.
Qed.

(** ** The three ways through [start_debate] *)

Lemma start_debate_idle inp w st :
  running st = true \/ reachable w = false ->
  (start_debate inp w st).1 = (Returned, st).
Proof.
  intros Hidle. unfold start_debate, start_debate_body, bind, read, boot. cbn.
  destruct (running st) eqn:Hrun; cbn; [done|].
  destruct Hidle as [|Hreach]; [done|]. by rewrite Hreach.
Qed.

(** The ending of a call, read off the final result of its body. *)
Lemma start_debate_runs inp w st :
  running st = false ->
  reachable w = true ->
  exists m0,
    prologue w (Machine st 0 0 EmptyString EmptyString [Probe (ollama_url_input inp)])
    = Ok tt m0
    /\ running (ds m0) = true
    /\ l_message_count m0 = message_count st
    /\ message_count (ds m0) = message_count st
    /\ l_current_agent_index m0
       = match current_agent_index st with Some i => i | None => Z.b2z (coin w) end
    /\ current_agent_index (ds m0) = Some (l_current_agent_index m0)
    /\ conversation (ds m0) = conversation st
    /\ chat_history (ds m0) = chat_history st
    /\ turns_begun (trace m0) = 0%nat
    /\ start_debate inp w st
       = match (debate_loop inp (turns w) ;; finish) m0 with
         | Ok _ m => (Returned, ds m, trace m)
         | Raised e m => (Uncaught e, ds m, trace m)
         | Starved m => (Unscripted, ds m, trace m)
         end.
Proof.
  intros Hrun Hreach.
  destruct (prologue_spec w
              (Machine st 0 0 EmptyString EmptyString [Probe (ollama_url_input inp)]))
    as (m0 & Hpro & H1 & H2 & H3 & H4 & H5 & H6 & H7 & H8).
  exists m0. repeat (split; [done|]).
  unfold start_debate. rewrite (start_debate_body_runs inp w st Hrun Hreach).
  by rewrite (bind_Ok _ _ _ _ _ Hpro).
Qed.

Lemma grows_loop_and_finish inp script m :
  grows m (machine_of ((debate_loop inp script ;; finish) m)).
Proof. apply grows_bind; intros; [apply grows_debate_loop | apply grows_finish]. Qed.

(** X1.  Whatever a call of [start_debate] meets (stop requests, failed
    generation calls, lines that do not parse) and however it ends, the
    conversation and the chat history gain the same number of entries,
    neither loses one, and the speakers and roles recorded before the call
    are still there, in the same order. *)
Theorem transcripts_grow_together (inp : inputs) (w : world) (st : debate_state) :
  let st' := (start_debate inp w st).1.2 in
  (exists n : nat,
     length (conversation st') = (length (conversation st) + n)%nat
     /\ length (chat_history st') = (length (chat_history st) + n)%nat)
  /\ map msg_name (conversation st) `prefix_of` map msg_name (conversation st')
  /\ map chat_role (chat_history st) `prefix_of` map chat_role (chat_history st').
Proof.
  destruct (running st) eqn:Hrun; [|destruct (reachable w) eqn:Hreach].
  - rewrite (start_debate_idle inp w st) by auto. cbn.
    split; [exists 0%nat; lia | done].
  - destruct (start_debate_runs inp w st Hrun Hreach)
      as (m0 & _ & _ & Hl & _ & _ & _ & Hc & Hh & _ & ->).
    pose proof (grows_loop_and_finish inp (turns w) m0) as [Hn _ Hgc Hgh Hgn Hgr].
    rewrite Hc in Hgc, Hgn. rewrite Hh in Hgh, Hgr.
    destruct ((debate_loop inp (turns w) ;; finish) m0) as [[] m|e m|m];
      cbn in *; (split; [|done]);
      exists (Z.to_nat (l_message_count m - l_message_count m0)); lia.
  - rewrite (start_debate_idle inp w st) by auto. cbn.
    split; [exists 0%nat; lia | done].
Qed.

Lemma bind_Ok_inv {A B} (c : M A) (k : A -> M B) m b m' :
  bind c k m = Ok b m' -> exists a m1, c m = Ok a m1 /\ k a m1 = Ok b m'.
Proof. unfold bind. destruct (c m) as [a m1| |]; [eauto | discriminate..]. Qed.

Lemma bind_Raised_inv {A B} (c : M A) (k : A -> M B) m e m' :
  bind c k m = Raised e m' ->
  c m = Raised e m' \/ exists a m1, c m = Ok a m1 /\ k a m1 = Raised e m'.
Proof.
  unfold bind. destruct (c m) as [a m1|e1 m1|m1]; [eauto | | discriminate].
  intros [= -> ->]. by left.
Qed.

(** The cap bounds the local counter: a turn adds at most one, and no
    turn begins at 1000. *)
Lemma respond_counts_at_most_one ag r m :
  l_message_count (machine_of (respond ag r m)) <= l_message_count m + 1.
Proof.
  destruct r as [lines|].
  - rewrite respond_some_eq.
    pose proof (frame_stream_loop ag lines (placeholder ag m)) as [Hn _ _ _ _ _ _ _].
    destruct (stream_loop ag lines (placeholder ag m)) as [[] m'|e m'|m'];
      cbn in *; lia.
  - destruct (frame_respond_failed ag m) as [Hn _ _ _ _ _ _ _]. lia.
Qed.

Lemma turn_counts_at_most_one inp te m :
  l_message_count (machine_of (turn inp te m)) <= l_message_count m + 1.
Proof.
  destruct (Py.index (agents inp) (l_current_agent_index m)) as [ag|] eqn:E1.
  2:{ unfold turn, agent_at, bind, read. rewrite E1. cbn. lia. }
  destruct (Py.index (agents inp) (1 - l_current_agent_index m)) as [other|] eqn:E2.
  2:{ unfold turn, agent_at, bind, read. rewrite E1. cbn. rewrite E2. cbn. lia. }
  rewrite (turn_eq inp _ _ _ _ E1 E2).
  unfold bind at 1. cbn [emit modify].
  match goal with |- context [bind _ _ ?mg] => set (m1 := mg) end.
  pose proof (respond_counts_at_most_one ag (reply te) m1) as Hr.
  unfold bind. destruct (respond ag (reply te) m1) as [[] m2|e m2|m2]; cbn in *; try done.
  destruct (conclude_spec ag (l_current_agent_index m) (stop_at_check te) m2)
    as (m3 & -> & Hn & _). cbn. lia.
Qed.

Lemma debate_loop_cap_bound inp script :
  forall m,
    l_message_count m <= 1000 ->
    l_message_count (machine_of (debate_loop inp script m)) <= 1000.
Proof.
  induction script as [|te script IH]; intros m Hm; cbn [debate_loop].
  - destruct (negb _); [done|]. by destruct (running _).
  - destruct (Z.ltb_spec (l_message_count m) 1000) as [Hlt|]; cbn [negb]; [|done].
    unfold bind at 1. rewrite read_running_eq.
    destruct (running (ds m) && negb (stop_at_guard te)); cbn [negb].
    2:{ cbn. by destruct (stop_at_guard te). }
    assert (l_message_count (if stop_at_guard te then with_ds (set_running false) m else m)
            = l_message_count m) as Hsame by (by destruct (stop_at_guard te)).
    pose proof (turn_counts_at_most_one inp te
                  (if stop_at_guard te then with_ds (set_running false) m else m)) as Ht.
    unfold bind. destruct (turn inp te _) as [[] m1|e m1|m1]; cbn in *; try lia.
    apply IH. lia.
Qed.

(** ** Counting *)

(** X2.  When a call of [start_debate] returns, message_count has grown
    by exactly the number of entries the call appended to the
    conversation; it never decreases, and a dict in which message_count is
    the length of the conversation is left in the same condition. *)
Theorem returned_call_counts_its_entries
    (inp : inputs) (w : world) (st st' : debate_state) (tr : list event) :
  start_debate inp w st = (Returned, st', tr) ->
  message_count st' - message_count st
  = Z.of_nat (length (conversation st')) - Z.of_nat (length (conversation st))
  /\ message_count st <= message_count st'
  /\ (message_count st = Z.of_nat (length (conversation st)) ->
      message_count st' = Z.of_nat (length (conversation st'))).
Proof.
  intros Hcall.
  assert (message_count st' - message_count st
          = Z.of_nat (length (conversation st')) - Z.of_nat (length (conversation st))
          /\ message_count st <= message_count st') as [Hlaw Hmono]; [|lia].
  destruct (running st) eqn:Hrun; [|destruct (reachable w) eqn:Hreach].
  - pose proof (start_debate_idle inp w st (or_introl Hrun)) as Hidle.
    rewrite Hcall in Hidle. injection Hidle as ->. lia.
  - destruct (start_debate_runs inp w st Hrun Hreach)
      as (m0 & _ & _ & Hl & _ & _ & _ & Hc & _ & _ & Heq).
    rewrite Hcall in Heq.
    destruct ((debate_loop inp (turns w) ;; finish) m0) as [[] m|e m|m] eqn:Hbody;
      [|discriminate..].
    injection Heq as -> _.
    apply bind_Ok_inv in Hbody as ([] & m1 & Hloop & Hfin).
    destruct (finish_spec m1) as (m' & Hfin' & _ & Hn & _ & Hc1 & _).
    rewrite Hfin in Hfin'. injection Hfin' as <-.
    pose proof (grows_debate_loop inp (turns w) m0) as [Hge _ Hgc _ _ _].
    rewrite Hloop in Hge, Hgc. cbn in Hge, Hgc.
    rewrite Hn, Hc1, <- Hc. lia.
  - pose proof (start_debate_idle inp w st (or_intror Hreach)) as Hidle.
    rewrite Hcall in Hidle. injection Hidle as ->. lia.
Qed.

Lemma returned_call_counts_its_entries_example :
  message_count
    (start_debate form_defaults
       (World true false [undisturbed [Record_ (Some "One.")]; failed_call; stop_now])
       after_one_turn).1.2
  - message_count after_one_turn
  = Z.of_nat (length (conversation
       (start_debate form_defaults
          (World true false [undisturbed [Record_ (Some "One.")]; failed_call; stop_now])
          after_one_turn).1.2))
    - Z.of_nat (length (conversation after_one_turn)).
Proof.
  apply (returned_call_counts_its_entries form_defaults
           (World true false [undisturbed [Record_ (Some "One.")]; failed_call; stop_now])
           after_one_turn
           (start_debate form_defaults
              (World true false [undisturbed [Record_ (Some "One.")]; failed_call; stop_now])
              after_one_turn).1.2
           (start_debate form_defaults
              (World true false [undisturbed [Record_ (Some "One.")]; failed_call; stop_now])
              after_one_turn).2).
  vm_compute. reflexivity.
Defined.

(** X3.  A call started with message_count at most 1000 leaves it at most
    1000 and appends at most [1000 - message_count] entries, however it
    ends. *)
Theorem message_count_never_exceeds_the_cap
    (inp : inputs) (w : world) (st : debate_state) :
  message_count st <= 1000 ->
  let st' := (start_debate inp w st).1.2 in
  message_count st' <= 1000
  /\ Z.of_nat (length (conversation st'))
     <= Z.of_nat (length (conversation st)) + (1000 - message_count st).
Proof.
  intros Hcap.
  destruct (running st) eqn:Hrun; [|destruct (reachable w) eqn:Hreach].
  - rewrite (start_debate_idle inp w st) by auto. cbn. lia.
  - destruct (start_debate_runs inp w st Hrun Hreach)
      as (m0 & _ & _ & Hl & Hd & _ & _ & Hc & _ & _ & ->).
    pose proof (debate_loop_cap_bound inp (turns w) m0 ltac:(lia)) as Hbound.
    pose proof (grows_debate_loop inp (turns w) m0) as [_ Hw Hgc _ _ _].
    unfold bind.
    destruct (debate_loop inp (turns w) m0) as [[] m1|e m1|m1].
    + destruct (finish_spec m1) as (m' & -> & _ & Hn & _ & Hc1 & _). cbn in *.
      rewrite Hn, Hc1, <- Hc. lia.
    + cbn in *. rewrite <- Hc. lia.
    + cbn in *. rewrite <- Hc. lia.
  - rewrite (start_debate_idle inp w st) by auto. cbn. lia.
Qed.

Lemma message_count_never_exceeds_the_cap_example :
  message_count
    (start_debate form_defaults
       (World true false [undisturbed [Record_ (Some "One.")]; undisturbed [Record_ (Some "Two.")]])
       (DebateState false [] [] 999 None)).1.2
  <= 1000.
Proof.
  apply (message_count_never_exceeds_the_cap form_defaults
           (World true false
              [undisturbed [Record_ (Some "One.")]; undisturbed [Record_ (Some "Two.")]])
           (DebateState false [] [] 999 None)).
  vm_compute. discriminate.
Defined.

(** ** How a call ends *)

Lemma absorb_running ag p m :
  running (ds (machine_of (absorb ag p m))) = running (ds m).
Proof.
  destruct m as [[r conv chat mc idx] lmc lidx status full tr].
  unfold absorb, bind, read, modify, set_last_chat_content,
    set_last_conversation_content, from_option, yield_chat, emit. cbn.
  destruct (Py.update_last _ chat); cbn; [|done].
  by destruct (Py.update_last _ conv).
Qed.

Lemma respond_failed_running ag m :
  running (ds (machine_of (respond ag None m))) = running (ds m).
Proof.
  destruct m as [[r conv chat mc idx] lmc lidx status full tr].
  unfold respond, bind, read, modify, set_last_chat_content,
    set_last_conversation_content, from_option, yield_chat, emit. cbn.
  destruct (Py.update_last _ chat); cbn; [|done].
  by destruct (Py.update_last _ conv).
Qed.

Lemma stream_loop_raises ag lines :
  forall m e m', stream_loop ag lines m = Raised e m' -> running (ds m') = true.
Proof.
  induction lines as [|[stop_pressed l] lines IH]; intros m e m'; cbn [stream_loop];
    [discriminate|].
  unfold bind at 1. rewrite read_running_eq.
  destruct (running (ds m) && negb stop_pressed) eqn:Hgo; cbn [negb]; [|discriminate].
  apply andb_true_iff in Hgo as [Hrun Hquiet]. destruct stop_pressed; [discriminate|].
  intros [Hline | (a & m1 & Hline & Hrest)]%bind_Raised_inv.
  - destruct l as [| |[p|]]; try discriminate.
    + by injection Hline as _ <-.
    + pose proof (absorb_running ag p m) as Hsame. rewrite Hline in Hsame. cbn in Hsame.
      congruence.
  - by apply IH in Hrest.
Qed.

Lemma respond_raises ag r m e m' :
  running (ds m) = true -> respond ag r m = Raised e m' -> running (ds m') = true.
Proof.
  intros Hrun. destruct r as [lines|].
  - rewrite respond_some_eq.
    destruct (stream_loop ag lines (placeholder ag m)) as [[] m1|e1 m1|m1] eqn:Hs;
      [discriminate| |discriminate].
    intros [= -> ->]. by apply stream_loop_raises in Hs.
  - intros Hr. pose proof (respond_failed_running ag m) as Hsame.
    rewrite Hr in Hsame. cbn in Hsame. congruence.
Qed.

Lemma turn_raises inp te m e m' :
  running (ds m) = true -> turn inp te m = Raised e m' -> running (ds m') = true.
Proof.
  intros Hrun.
  destruct (Py.index (agents inp) (l_current_agent_index m)) as [ag|] eqn:E1.
  2:{ unfold turn, agent_at, bind, read. rewrite E1. cbn. by intros [= _ <-]. }
  destruct (Py.index (agents inp) (1 - l_current_agent_index m)) as [other|] eqn:E2.
  2:{ unfold turn, agent_at, bind, read. rewrite E1. cbn. rewrite E2. cbn.
      by intros [= _ <-]. }
  rewrite (turn_eq inp _ _ _ _ E1 E2).
  unfold bind at 1. cbn [emit modify].
  intros [Hr | ([] & m2 & _ & Hc)]%bind_Raised_inv.
  - by apply respond_raises in Hr.
  - destruct (conclude_spec ag (l_current_agent_index m) (stop_at_check te) m2)
      as (m3 & Hok & _). rewrite Hok in Hc. discriminate.
Qed.

Lemma debate_loop_raises inp script :
  forall m e m', debate_loop inp script m = Raised e m' -> running (ds m') = true.
Proof.
  induction script as [|te script IH]; intros m e m'; cbn [debate_loop].
  - destruct (negb _); [discriminate|]. by destruct (running _).
  - destruct (negb _); [discriminate|].
    unfold bind at 1. rewrite read_running_eq.
    destruct (running (ds m) && negb (stop_at_guard te)) eqn:Hgo; cbn [negb];
      [|discriminate].
    apply andb_true_iff in Hgo as [Hrun Hquiet].
    destruct (stop_at_guard te); [discriminate|].
    intros [Ht | ([] & m1 & _ & Hrest)]%bind_Raised_inv.
    + by apply turn_raises in Ht.
    + by apply IH in Hrest.
    + discriminate.
Qed.

(** X4.  A call of [start_debate] during which stop is not pressed and
    that ends with an uncaught exception leaves [running] true in the
    dict.  Every later call of [start_debate] on that dict is therefore a
    no-op: the session does not start again until [stop_debate] or
    [reset_debate] clears the flag.  (With stop pressed while the failing
    step runs, [stop_debate] clears the flag at once and the session is
    not stuck; the script cannot place a press there, hence the
    hypothesis.) *)
Theorem exception_leaves_session_stuck
    (inp : inputs) (w : world) (st st' : debate_state) (e : exn) (tr : list event) :
  stop_is_pressed w = false ->
  start_debate inp w st = (Uncaught e, st', tr) ->
  running st' = true
  /\ (forall inp' w',
        start_debate inp' w' st' = (Returned, st', [Yield (UiUpdate None None false true)])).
Proof.
  intros _ Hcall.
  assert (running st' = true) as Hstuck.
  { destruct (running st) eqn:Hrun; [|destruct (reachable w) eqn:Hreach].
    - pose proof (start_debate_idle inp w st (or_introl Hrun)) as Hidle.
      rewrite Hcall in Hidle. discriminate.
    - destruct (start_debate_runs inp w st Hrun Hreach)
        as (m0 & _ & _ & _ & _ & _ & _ & _ & _ & _ & Heq).
      rewrite Hcall in Heq.
      destruct ((debate_loop inp (turns w) ;; finish) m0) as [[] m|e1 m|m] eqn:Hbody;
        [discriminate| |discriminate].
      injection Heq as -> -> _.
      apply bind_Raised_inv in Hbody as [Hloop | ([] & m1 & _ & Hfin)].
      + by apply debate_loop_raises in Hloop.
      + destruct (finish_spec m1) as (m' & Hok & _). rewrite Hok in Hfin. discriminate.
    - pose proof (start_debate_idle inp w st (or_intror Hreach)) as Hidle.
      rewrite Hcall in Hidle. discriminate. }
  split; [done|]. intros inp' w'.
  unfold start_debate, start_debate_body, bind, read, boot. cbn. by rewrite Hstuck.
Qed.

Lemma exception_leaves_session_stuck_example :
  stop_is_pressed (World true false [failed_call]) = false
  /\ running (start_debate form_defaults (World true false [failed_call]) initial_state).1.2
     = true.
Proof.
  split; [reflexivity|].
  apply (exception_leaves_session_stuck form_defaults
           (World true false [failed_call]) initial_state
           (start_debate form_defaults (World true false [failed_call]) initial_state).1.2
           IndexError
           (start_debate form_defaults (World true false [failed_call]) initial_state).2).
  - reflexivity.
  - vm_compute. reflexivity.
Defined.

Lemma finish_last_yield m :
  exists m',
    finish m = Ok tt m'
    /\ exists status,
         last (trace m')
         = Some (Yield (UiUpdate (Some (chat_history (ds m'))) (Some status) true false)).
Proof.
  destruct m as [[r conv chat mc i] lmc lidx status full tr].
  unfold finish, bind, read. cbn.
  destruct (lmc >=? 1000); cbn; eexists; (split; [reflexivity|]); cbn;
    eexists; by rewrite last_snoc.
Qed.

(** X5.  A call made while the session is not running that returns
    leaves [running] false, and the last value it yields shows the chat
    history as the call leaves it, with the start button enabled and the
    stop button disabled. *)
Theorem returned_call_hands_back_the_controls
    (inp : inputs) (w : world) (st st' : debate_state) (tr : list event) :
  running st = false ->
  start_debate inp w st = (Returned, st', tr) ->
  running st' = false
  /\ exists status,
       last tr = Some (Yield (UiUpdate (Some (chat_history st')) (Some status) true false)).
Proof.
  intros Hrun Hcall. destruct (reachable w) eqn:Hreach.
  - destruct (start_debate_runs inp w st Hrun Hreach)
      as (m0 & _ & _ & _ & _ & _ & _ & _ & _ & _ & Heq).
    rewrite Hcall in Heq.
    destruct ((debate_loop inp (turns w) ;; finish) m0) as [[] m|e m|m] eqn:Hbody;
      [|discriminate..].
    injection Heq as -> ->.
    apply bind_Ok_inv in Hbody as ([] & m1 & _ & Hfin).
    destruct (finish_spec m1) as (m' & Hfin' & Hoff & _).
    destruct (finish_last_yield m1) as (m'' & Hfin'' & status & Hlast).
    rewrite Hfin in Hfin', Hfin''. injection Hfin' as <-. injection Hfin'' as <-.
    split; [done|]. by exists status.
  - revert Hcall. unfold start_debate, start_debate_body, bind, read, boot. cbn.
    rewrite Hrun. cbn. rewrite Hreach. cbn. intros [= <- <-].
    split; [done|]. by exists unreachable_status.
Qed.

Lemma returned_call_hands_back_the_controls_example :
  running
    (start_debate form_defaults
       (World true false [undisturbed [Record_ (Some "One.")]; stop_now])
       initial_state).1.2
  = false.
Proof.
  apply (returned_call_hands_back_the_controls form_defaults
           (World true false [undisturbed [Record_ (Some "One.")]; stop_now])
           initial_state
           (start_debate form_defaults
              (World true false [undisturbed [Record_ (Some "One.")]; stop_now])
              initial_state).1.2
           (start_debate form_defaults
              (World true false [undisturbed [Record_ (Some "One.")]; stop_now])
              initial_state).2).
  - reflexivity.
  - vm_compute. reflexivity.
Defined.

(** ** Turns whose generation call returns a response *)

Lemma streaming_set_running ag cl hl role b m :
  streaming ag cl hl role m -> streaming ag cl hl role (with_ds (set_running b) m).
Proof. by destruct m as [[r conv chat mc idx] lmc lidx status full tr]. Qed.

(** However the stream ends (its end, a stop request, a line that does
    not parse), the last entry of both transcripts holds the buffer. *)
Lemma stream_loop_streaming ag cl hl role lines :
  forall m,
    streaming ag cl hl role m ->
    streaming ag cl hl role (machine_of (stream_loop ag lines m)).
Proof.
  induction lines as [|[stop_pressed l] lines IH]; intros m Hm; [done|].
  cbn [stream_loop]. unfold bind at 1. rewrite read_running_eq.
  assert (streaming ag cl hl role
            (if stop_pressed then with_ds (set_running false) m else m)) as Hm1
    by (destruct stop_pressed; [by apply streaming_set_running | done]).
  destruct (running (ds m) && negb stop_pressed); cbn [negb]; [|done].
  destruct l as [| |[p|]]; unfold bind; cbn [ret raise]; try done.
  - by apply IH.
  - destruct (absorb_streaming ag cl hl role p _ Hm1) as (m2 & -> & Hm2 & _).
    by apply IH.
  - by apply IH.
Qed.

Lemma respond_appends ag lines m :
  exists full,
    conversation (ds (machine_of (respond ag (Some lines) m)))
    = conversation (ds m) ++ [Message (name ag) full]
    /\ chat_history (ds (machine_of (respond ag (Some lines) m)))
       = chat_history (ds m)
         ++ [ChatMessage (role_of (l_current_agent_index m))
               (shown (Message (name ag) full))].
Proof.
  rewrite respond_some_eq.
  pose proof (stream_loop_streaming ag _ _ _ lines _ (placeholder_streaming ag m))
    as [Hc Hh].
  destruct (stream_loop ag lines (placeholder ag m)) as [[] m'|e m'|m']; cbn in Hc, Hh;
    exists (full_response m'); split; cbn; done.
Qed.

Lemma turn_appends inp te lines m :
  l_current_agent_index m = 0 \/ l_current_agent_index m = 1 ->
  reply te = Some lines ->
  exists ag full,
    Py.index (agents inp) (l_current_agent_index m) = Some ag
    /\ conversation (ds (machine_of (turn inp te m)))
       = conversation (ds m) ++ [Message (name ag) full]
    /\ chat_history (ds (machine_of (turn inp te m)))
       = chat_history (ds m)
         ++ [ChatMessage (if l_current_agent_index m =? 0 then "user" else "assistant")
               (name ag +:+ ": " +:+ full)].
Proof.
  intros Hslot Hreply.
  destruct (agent_at_slot inp (l_current_agent_index m)) as [ag Hag]; [done|].
  destruct (agent_at_slot inp (1 - l_current_agent_index m)) as [other Hother]; [lia|].
  remember (turn inp te m) as r eqn:Hr.
  rewrite (turn_eq inp _ _ _ _ Hag Hother), Hreply in Hr.
  unfold bind at 1 in Hr. cbn [emit modify] in Hr.
  match type of Hr with context [bind _ _ ?mg] => set (m1 := mg) in Hr end.
  destruct (respond_appends ag lines m1) as (full & Hc & Hh).
  exists ag, full. split; [done|].
  unfold role_of, shown in Hh.
  change (conversation (ds m1)) with (conversation (ds m)) in Hc.
  change (chat_history (ds m1)) with (chat_history (ds m)) in Hh.
  change (l_current_agent_index m1) with (l_current_agent_index m) in Hh.
  cbn [msg_name msg_content] in Hh.
  unfold bind in Hr. destruct (respond ag (Some lines) m1) as [[] m2|e m2|m2];
    cbn [machine_of] in Hc, Hh; subst r; [|done..].
  destruct (conclude_spec ag (l_current_agent_index m) (stop_at_check te) m2)
    as (m3 & -> & _ & _ & _ & Hc3 & Hh3 & _).
  cbn [machine_of]. by rewrite Hc3, Hh3, Hc, Hh.
Qed.

(** X6.  A turn whose generation call returns a response appends exactly
    one entry to each transcript, whatever the response holds and however
    the turn ends: the conversation entry carries the name of the agent in
    the current slot, the chat entry has role ["user"] for slot 0 and
    ["assistant"] for slot 1 and shows ["<name>: <content>"] for the
    content of the conversation entry; the earlier entries are untouched. *)
Theorem answered_turn_appends_one_entry
    (inp : inputs) (te : turn_script) (lines : list (bool * line)) (m : machine) :
  l_current_agent_index m = 0 \/ l_current_agent_index m = 1 ->
  reply te = Some lines ->
  exists ag full,
    Py.index (agents inp) (l_current_agent_index m) = Some ag
    /\ conversation (ds (machine_of (turn inp te m)))
       = conversation (ds m) ++ [Message (name ag) full]
    /\ chat_history (ds (machine_of (turn inp te m)))
       = chat_history (ds m)
         ++ [ChatMessage (if l_current_agent_index m =? 0 then "user" else "assistant")
               (name ag +:+ ": " +:+ full)].
Proof. exact (turn_appends inp te lines m). Qed.

Lemma answered_turn_appends_one_entry_example :
  exists ag full,
    Py.index (agents form_defaults) 1 = Some ag
    /\ conversation
         (ds (machine_of (turn form_defaults (undisturbed [Record_ (Some "Hi."); Malformed])
                            (Machine after_one_turn 1 1 EmptyString EmptyString []))))
       = conversation after_one_turn ++ [Message (name ag) full].
Proof.
  destruct (answered_turn_appends_one_entry form_defaults
              (undisturbed [Record_ (Some "Hi."); Malformed])
              [(false, Record_ (Some "Hi.")); (false, Malformed)]
              (Machine after_one_turn 1 1 EmptyString EmptyString []))
    as (ag & full & Hag & Hc & _).
  - right. reflexivity.
  - reflexivity.
  - exists ag, full. split; [exact Hag | exact Hc].
Defined.

Lemma extends_refl m : extends m m.
Proof. by constructor. Qed.

Lemma extends_trans m1 m2 m3 : extends m1 m2 -> extends m2 m3 -> extends m1 m3.
Proof. intros [] []. constructor; [by etrans..|auto]. Qed.

Lemma extends_same_transcripts m m' :
  conversation (ds m') = conversation (ds m) ->
  chat_history (ds m') = chat_history (ds m) ->
  extends m m'.
Proof. intros Hc Hh. constructor; unfold in_step; rewrite ?Hc, ?Hh; done. Qed.

Lemma extends_turn inp te m :
  replies te = true -> extends m (machine_of (turn inp te m)).
Proof.
  unfold replies. destruct (reply te) as [lines|] eqn:Hreply; [intros _|discriminate].
  destruct (Py.index (agents inp) (l_current_agent_index m)) as [ag|] eqn:E1.
  2:{ unfold turn, agent_at, bind, read. rewrite E1. apply extends_refl. }
  destruct (Py.index (agents inp) (1 - l_current_agent_index m)) as [other|] eqn:E2.
  2:{ unfold turn, agent_at, bind, read. rewrite E1. cbn. rewrite E2. apply extends_refl. }
  assert (l_current_agent_index m = 0 \/ l_current_agent_index m = 1) as Hslot.
  { apply agent_at_range in E1. apply agent_at_range in E2. lia. }
  destruct (turn_appends inp te lines m Hslot Hreply) as (ag' & full & _ & Hc & Hh).
  constructor.
  - rewrite Hc. by apply prefix_app_r.
  - rewrite Hh. by apply prefix_app_r.
  - unfold in_step. rewrite Hc, Hh, !map_app. by intros ->.
Qed.

Lemma extends_read_running stop_pressed m :
  extends m (machine_of (read_running stop_pressed m)).
Proof. rewrite read_running_eq. by destruct stop_pressed; apply extends_same_transcripts. Qed.

Lemma extends_debate_loop inp script :
  forallb replies script = true ->
  forall m, extends m (machine_of (debate_loop inp script m)).
Proof.
  induction script as [|te script IH]; intros Hall m; cbn [debate_loop].
  - destruct (negb _); [apply extends_refl|]. destruct (running _); apply extends_refl.
  - cbn [forallb] in Hall. apply andb_true_iff in Hall as [Hte Hall].
    destruct (negb _); [apply extends_refl|].
    unfold bind at 1. pose proof (extends_read_running (stop_at_guard te) m) as Hg.
    destruct (read_running (stop_at_guard te) m) as [r m0| |]; cbn in Hg; [|done..].
    destruct r; cbn [negb]; [|done].
    pose proof (extends_turn inp te m0 Hte) as Ht.
    unfold bind. destruct (turn inp te m0) as [continue m1|e m1|m1]; cbn in Ht;
      [|by eapply extends_trans..].
    destruct continue; [|by eapply extends_trans].
    eapply extends_trans; [exact Hg|]. eapply extends_trans; [exact Ht|]. by apply IH.
Qed.

Lemma extends_finish m : extends m (machine_of (finish m)).
Proof.
  destruct (finish_spec m) as (m' & -> & _ & _ & _ & Hc & Hh & _).
  by apply extends_same_transcripts.
Qed.

(** X7.  In a call of [start_debate] all of whose generation calls return
    a response, the transcripts are only appended to: the conversation
    and the chat history the call was given are prefixes of the ones it
    leaves, however it ends.  If moreover every chat entry showed
    ["<name>: <content>"] of its conversation entry before the call, it
    does so after it. *)
Theorem answered_calls_only_append (inp : inputs) (w : world) (st : debate_state) :
  forallb replies (turns w) = true ->
  let st' := (start_debate inp w st).1.2 in
  conversation st `prefix_of` conversation st'
  /\ chat_history st `prefix_of` chat_history st'
  /\ (in_step st -> in_step st').
Proof.
  intros Hall.
  destruct (running st) eqn:Hrun; [|destruct (reachable w) eqn:Hreach].
  - by rewrite (start_debate_idle inp w st) by auto.
  - destruct (start_debate_runs inp w st Hrun Hreach)
      as (m0 & _ & _ & _ & _ & _ & _ & Hc & Hh & _ & ->).
    assert (extends m0 (machine_of ((debate_loop inp (turns w) ;; finish) m0)))
      as [Hec Heh Hes].
    { pose proof (extends_debate_loop inp (turns w) Hall m0) as Hl.
      unfold bind. destruct (debate_loop inp (turns w) m0) as [[] m1|e m1|m1]; [|done..].
      eapply extends_trans; [exact Hl | apply extends_finish]. }
    unfold in_step in *. rewrite Hc in Hec, Hes. rewrite Hh in Heh, Hes.
    by destruct ((debate_loop inp (turns w) ;; finish) m0) as [[] m|e m|m].
  - by rewrite (start_debate_idle inp w st) by auto.
Qed.

Lemma answered_calls_only_append_example :
  conversation after_one_turn
  `prefix_of`
  conversation
    (start_debate form_defaults
       (World true false
          [undisturbed [Record_ (Some "Hel"); Blank; Record_ (Some "lo")];
           TurnScript false (Some [(false, Record_ (Some "No")); (true, Record_ (Some "pe"))]) false])
       after_one_turn).1.2.
Proof.
  apply (answered_calls_only_append form_defaults
           (World true false
              [undisturbed [Record_ (Some "Hel"); Blank; Record_ (Some "lo")];
               TurnScript false
                 (Some [(false, Record_ (Some "No")); (true, Record_ (Some "pe"))]) false])
           after_one_turn).
  reflexivity.
Defined.

(** ** Generation calls that fail, and calls that all answer *)

Lemma respond_failed_returns ag m :
  (0 < length (conversation (ds m)))%nat ->
  (0 < length (chat_history (ds m)))%nat ->
  exists m', respond ag None m = Ok tt m'.
Proof.
  destruct m as [[r conv chat mc idx] lmc lidx status full tr]. cbn.
  intros Hc Hh. destruct conv as [|c conv]; [cbn in Hc; lia|].
  destruct chat as [|h chat]; [cbn in Hh; lia|].
  unfold respond, bind, read, modify, set_last_chat_content,
    set_last_conversation_content, from_option, yield_chat, emit. cbn. eauto.
Qed.

(** A failed generation call on a non-empty transcript is a completed
    turn that counts nothing. *)
Lemma failed_turn_completes inp m :
  l_current_agent_index m = 0 \/ l_current_agent_index m = 1 ->
  running (ds m) = true ->
  (0 < length (conversation (ds m)))%nat ->
  (0 < length (chat_history (ds m)))%nat ->
  exists m',
    turn inp failed_call m = Ok true m'
    /\ l_message_count m' = l_message_count m
    /\ message_count (ds m') = l_message_count m
    /\ l_current_agent_index m' = 1 - l_current_agent_index m
    /\ running (ds m') = true
    /\ length (conversation (ds m')) = length (conversation (ds m))
    /\ length (chat_history (ds m')) = length (chat_history (ds m))
    /\ turns_begun (trace m') = S (turns_begun (trace m)).
Proof.
  intros Hslot Hrun Hc Hh.
  destruct (agent_at_slot inp (l_current_agent_index m)) as [ag Hag]; [done|].
  destruct (agent_at_slot inp (1 - l_current_agent_index m)) as [other Hother]; [lia|].
  rewrite (turn_eq inp _ _ _ _ Hag Hother).
  unfold bind at 1. cbn [emit modify reply failed_call stop_at_check].
  match goal with |- context [bind _ _ ?mg] => set (m1 := mg) end.
  destruct (respond_failed_returns ag m1 Hc Hh) as (m2 & Hres).
  pose proof (frame_respond_failed ag m1) as [Hn _ _ _ Hfh Hfc Hb _].
  pose proof (respond_failed_running ag m1) as Hrun2.
  rewrite Hres in *. cbn [machine_of] in *.
  rewrite (bind_Ok _ _ _ _ _ Hres).
  destruct (conclude_spec ag (l_current_agent_index m) false m2)
    as (m3 & Hcon & Hn3 & Hd3 & Hb3 & Hc3 & Hh3 & Hrun3 & Hnext).
  change (running (ds m1)) with (running (ds m)) in Hrun2.
  rewrite Hrun2, Hrun in Hcon, Hrun3, Hnext. cbn [andb negb] in *.
  destruct (Hnext eq_refl) as [Hl3 _].
  exists m3. split; [done|].
  rewrite Hn3, Hd3, Hn, Hl3, Hrun3, Hc3, Hfc, Hh3, Hfh, Hb3, Hb.
  subst m1. cbn [trace]. rewrite turns_begun_snoc. cbn [is_generate].
  repeat split; lia.
Qed.

Lemma failed_turns_complete inp n :
  forall m,
    l_current_agent_index m = 0 \/ l_current_agent_index m = 1 ->
    running (ds m) = true ->
    l_message_count m < 1000 ->
    message_count (ds m) = l_message_count m ->
    (0 < length (conversation (ds m)))%nat ->
    (0 < length (chat_history (ds m)))%nat ->
    exists m',
      after_turns inp (replicate n failed_call) m = Some m'
      /\ l_message_count m' = l_message_count m
      /\ message_count (ds m') = l_message_count m
      /\ running (ds m') = true
      /\ length (conversation (ds m')) = length (conversation (ds m))
      /\ turns_begun (trace m') = (turns_begun (trace m) + n)%nat.
Proof.
  induction n as [|n IH]; intros m Hslot Hrun Hlt Hd Hc Hh.
  - exists m. repeat split; try done; lia.
  - cbn [replicate after_turns].
    destruct (Z.ltb_spec (l_message_count m) 1000); [|lia].
    rewrite read_running_eq. cbn [stop_at_guard failed_call negb]. rewrite Hrun. cbn [andb].
    destruct (failed_turn_completes inp m Hslot Hrun Hc Hh)
      as (m1 & -> & Hn1 & Hd1 & Hl1 & Hrun1 & Hc1 & Hh1 & Hb1).
    destruct (IH m1) as (m' & Hk & Hn' & Hd' & Hrun' & Hc' & Hb'); try lia; try done.
    exists m'. split; [done|]. repeat split; try done; lia.
Qed.

(** X8.  Generation calls that fail are not counted.  On a non-empty
    transcript, after any number [n] of consecutive failed calls the loop
    has made [n] generation calls, message_count and the number of entries
    are what they were, and the loop is still running, about to make
    another call: the cap of 1000 messages does not bound the number of
    generation calls. *)
Theorem failed_calls_are_never_counted
    (inp : inputs) (w : world) (st : debate_state) (n : nat) :
  running st = false ->
  reachable w = true ->
  message_count st < 1000 ->
  (current_agent_index st = None \/ current_agent_index st = Some 0
   \/ current_agent_index st = Some 1) ->
  conversation st <> [] ->
  chat_history st <> [] ->
  turns w = replicate n failed_call ->
  exists st' tr,
    start_debate inp w st = (Unscripted, st', tr)
    /\ turns_begun tr = n
    /\ message_count st' = message_count st
    /\ length (conversation st') = length (conversation st)
    /\ running st' = true.
Proof.
  intros Hrun Hreach Hlt Hidx Hc Hh Hturns.
  destruct (start_debate_runs inp w st Hrun Hreach)
    as (m0 & _ & Hrun0 & Hl0 & Hd0 & Hi0 & _ & Hc0 & Hh0 & Hb0 & ->).
  assert (l_current_agent_index m0 = 0 \/ l_current_agent_index m0 = 1) as Hslot.
  { rewrite Hi0. destruct Hidx as [-> | [-> | ->]]; [destruct (coin w)|..]; auto. }
  destruct (failed_turns_complete inp n m0) as (mk & Hk & Hn & Hd & Hrunk & Hck & Hbk);
    try done; try lia.
  { rewrite Hc0. destruct (conversation st); [done | cbn; lia]. }
  { rewrite Hh0. destruct (chat_history st); [done | cbn; lia]. }
  rewrite Hturns.
  pose proof (after_turns_debate_loop inp _ [] _ _ Hk) as Hloop.
  rewrite app_nil_r in Hloop.
  assert (debate_loop inp [] mk = Starved mk) as Hstarved.
  { cbn [debate_loop]. destruct (Z.ltb_spec (l_message_count mk) 1000); [|lia].
    cbn [negb]. by rewrite Hrunk. }
  unfold bind. rewrite Hloop, Hstarved.
  exists (ds mk), (trace mk). split; [done|].
  rewrite Hbk, Hb0, Hd, Hck, Hc0. repeat split; try done; lia.
Qed.

Lemma failed_calls_are_never_counted_example :
  exists st' tr,
    start_debate form_defaults (World true false (replicate 5 failed_call)) after_one_turn
    = (Unscripted, st', tr)
    /\ turns_begun tr = 5%nat
    /\ message_count st' = 1.
Proof.
  destruct (failed_calls_are_never_counted form_defaults
              (World true false (replicate 5 failed_call)) after_one_turn 5)
    as (st' & tr & Hcall & Hb & Hn & _).
  - reflexivity.
  - reflexivity.
  - reflexivity.
  - right. left. reflexivity.
  - discriminate.
  - discriminate.
  - reflexivity.
  - exists st', tr. split; [exact Hcall|]. split; [exact Hb | exact Hn].
Defined.

Lemma answers_inv te :
  answers te = true ->
  exists lines, reply te = Some lines /\ Forall (fun x => x.2 <> Malformed) lines.
Proof.
  unfold answers. destruct (reply te) as [lines|]; [|discriminate].
  intros Hall. exists lines. split; [done|].
  induction lines as [|[s l] lines IH]; [constructor|].
  cbn [forallb] in Hall. apply andb_true_iff in Hall as [Hl Hall].
  constructor; [|by apply IH]. by destruct l.
Qed.

Lemma debate_loop_returns inp script :
  forallb answers script = true ->
  forall m,
    l_current_agent_index m = 0 \/ l_current_agent_index m = 1 ->
    1000 - l_message_count m <= Z.of_nat (length script) ->
    exists m',
      debate_loop inp script m = Ok tt m'
      /\ Z.of_nat (turns_begun (trace m'))
         <= Z.of_nat (turns_begun (trace m)) + Z.max 0 (1000 - l_message_count m).
Proof.
  induction script as [|te script IH]; intros Hall m Hslot Hlen.
  - exists m. cbn [length] in Hlen. split; [apply debate_loop_cap|]; lia.
  - cbn [forallb] in Hall. apply andb_true_iff in Hall as [Hte Hall].
    destruct (Z.lt_ge_cases (l_message_count m) 1000) as [Hlt|Hge].
    2:{ exists m. split; [by apply debate_loop_cap | lia]. }
    rewrite debate_loop_cons by done.
    unfold bind at 1. rewrite read_running_eq.
    destruct (running (ds m) && negb (stop_at_guard te)) eqn:Hgo; cbn [negb].
    2:{ eexists. split; [reflexivity|]. destruct (stop_at_guard te); cbn; lia. }
    apply andb_true_iff in Hgo as [_ Hquiet]. destruct (stop_at_guard te); [done|].
    destruct (answers_inv te Hte) as (lines & Hreply & Hlines).
    destruct (turn_streams inp te lines m Hslot Hreply Hlines)
      as (continue & m1 & Hturn & Hn1 & Hb1 & _).
    rewrite (bind_Ok _ _ _ _ _ Hturn).
    destruct continue.
    + apply turn_completed in Hturn as (_ & Hl1 & _).
      destruct (IH Hall m1) as (m' & Hloop & Hb'); [lia | cbn [length] in Hlen; lia |].
      exists m'. split; [done|]. lia.
    + exists m1. split; [done|]. lia.
Qed.

(** X9.  When every generation call returns a response whose lines all
    parse, and the script describes at least [1000 - message_count]
    turns, the call of [start_debate] returns, after at most
    [1000 - message_count] generation calls, with [running] false. *)
Theorem answered_debate_terminates (inp : inputs) (w : world) (st : debate_state) :
  running st = false ->
  reachable w = true ->
  (current_agent_index st = None \/ current_agent_index st = Some 0
   \/ current_agent_index st = Some 1) ->
  forallb answers (turns w) = true ->
  1000 - message_count st <= Z.of_nat (length (turns w)) ->
  exists st' tr,
    start_debate inp w st = (Returned, st', tr)
    /\ Z.of_nat (turns_begun tr) <= Z.max 0 (1000 - message_count st)
    /\ running st' = false.
Proof.
  intros Hrun Hreach Hidx Hall Hlen.
  destruct (start_debate_runs inp w st Hrun Hreach)
    as (m0 & _ & _ & Hl0 & _ & Hi0 & _ & _ & _ & Hb0 & ->).
  assert (l_current_agent_index m0 = 0 \/ l_current_agent_index m0 = 1) as Hslot.
  { rewrite Hi0. destruct Hidx as [-> | [-> | ->]]; [destruct (coin w)|..]; auto. }
  destruct (debate_loop_returns inp (turns w) Hall m0 Hslot) as (m1 & Hloop & Hb1); [lia|].
  rewrite (bind_Ok _ _ _ _ _ Hloop).
  destruct (finish_spec m1) as (m' & -> & Hoff & _ & _ & _ & _ & Hb' & _).
  exists (ds m'), (trace m'). split; [done|]. split; [lia | done].
Qed.

Lemma answered_debate_terminates_example :
  exists st' tr,
    start_debate form_defaults
      (World true true [undisturbed [Record_ (Some "One.")]; undisturbed [Record_ (Some "Two.")]])
      (DebateState false [] [] 998 None)
    = (Returned, st', tr)
    /\ Z.of_nat (turns_begun tr) <= 2.
Proof.
  destruct (answered_debate_terminates form_defaults
              (World true true
                 [undisturbed [Record_ (Some "One.")]; undisturbed [Record_ (Some "Two.")]])
              (DebateState false [] [] 998 None))
    as (st' & tr & Hcall & Hb & _).
  - reflexivity.
  - reflexivity.
  - left. reflexivity.
  - reflexivity.
  - cbn. lia.
  - exists st', tr. split; [exact Hcall | exact Hb].
Defined.

(** ** Stop requests and snapshots during a stream *)

Lemma absorb_trace ag cl hl role p m :
  streaming ag cl hl role m ->
  exists m',
    absorb ag p m = Ok tt m'
    /\ trace m'
       = trace m
         ++ [Yield (UiUpdate
                      (Some (hl ++ [ChatMessage role
                                      (name ag +:+ ": " +:+ (full_response m +:+ p))]))
                      (Some (name ag +:+ " is typing...")) false true)].
Proof.
  destruct m as [[r conv chat mc idx] lmc lidx status full tr].
  unfold streaming. cbn. intros [-> ->].
  unfold absorb, bind, read, modify, set_last_chat_content,
    set_last_conversation_content, from_option, yield_chat, emit. cbn.
  rewrite update_last_snoc. cbn. rewrite update_last_snoc. cbn.
  eexists. split; reflexivity.
Qed.

Lemma stream_loop_snapshots ag cl hl role lines :
  Forall (fun x => x.1 = false /\ x.2 <> Malformed) lines ->
  forall m,
    streaming ag cl hl role m ->
    running (ds m) = true ->
    exists m',
      stream_loop ag lines m = Ok tt m'
      /\ trace m' = trace m ++ snapshots ag hl role (full_response m) (fragments lines).
Proof.
  induction 1 as [|[stop_pressed l] lines [Hquiet Hl] _ IH]; intros m Hm Hrun.
  - exists m. split; [done|]. cbn. by rewrite app_nil_r.
  - cbn in Hquiet, Hl. subst stop_pressed.
    cbn [stream_loop]. unfold bind at 1. rewrite read_running_eq, Hrun. cbn [andb negb].
    destruct l as [| |[p|]]; [| done | |].
    + unfold bind at 1. cbn [ret]. by apply IH.
    + destruct (absorb_streaming ag cl hl role p m Hm) as (m1 & Habs & Hs1 & Hfull & Hrun1).
      destruct (absorb_trace ag cl hl role p m Hm) as (m1' & Habs' & Htr).
      rewrite Habs in Habs'. injection Habs' as <-.
      rewrite (bind_Ok _ _ _ _ _ Habs).
      destruct (IH m1 Hs1) as (m' & Hloop & Htr'); [congruence|].
      exists m'. split; [done|].
      rewrite Htr', Htr, Hfull. unfold fragments. cbn [map concat fragment_of snd app].
      fold (fragments lines). cbn [snapshots]. by rewrite <- (assoc_L (++)).
    + unfold bind at 1. cbn [ret]. by apply IH.
Qed.

(** X10.  While a response is read to its end without a stop request,
    the turn yields exactly one value per fragment, in order, and nothing
    for the lines that carry none: the k-th value shows, after the earlier
    chat entries, the entry of the turn with the concatenation of the
    first k fragments, and the status ["<name> is typing..."]. *)
Theorem one_snapshot_per_fragment (ag : agent) (lines : list (bool * line)) (m : machine) :
  Forall (fun x => x.1 = false /\ x.2 <> Malformed) lines ->
  running (ds m) = true ->
  exists m',
    respond ag (Some lines) m = Ok tt m'
    /\ trace m'
       = trace m
         ++ snapshots ag (chat_history (ds m))
              (if l_current_agent_index m =? 0 then "user" else "assistant")
              EmptyString (fragments lines).
Proof.
  intros Hlines Hrun. rewrite respond_some_eq.
  destruct (stream_loop_snapshots ag _ _ _ lines Hlines _ (placeholder_streaming ag m))
    as (m1 & -> & Htr); [done|].
  eexists. split; [reflexivity|]. exact Htr.
Qed.

Lemma one_snapshot_per_fragment_example :
  exists m',
    respond (Agent "A" "" "llama3" 1%float 40 2000 "")
      (Some [(false, Record_ (Some "Hel")); (false, Blank); (false, Record_ (Some "lo"));
             (false, Record_ None); (false, Record_ (Some " world"))])
      (boot (DebateState true [] [] 0 (Some 0)))
    = Ok tt m'
    /\ trace m'
       = [Yield (UiUpdate (Some [ChatMessage "user" "A: Hel"]) (Some "A is typing...") false true);
          Yield (UiUpdate (Some [ChatMessage "user" "A: Hello"]) (Some "A is typing...") false true);
          Yield (UiUpdate (Some [ChatMessage "user" "A: Hello world"]) (Some "A is typing...")
                   false true)].
Proof.
  destruct (one_snapshot_per_fragment (Agent "A" "" "llama3" 1%float 40 2000 "")
              [(false, Record_ (Some "Hel")); (false, Blank); (false, Record_ (Some "lo"));
               (false, Record_ None); (false, Record_ (Some " world"))]
              (boot (DebateState true [] [] 0 (Some 0))))
    as (m' & Hres & Htr).
  - repeat constructor; discriminate.
  - reflexivity.
  - exists m'. split; [exact Hres|]. rewrite Htr. reflexivity.
Defined.

Lemma stream_loop_interrupted ag cl hl role pre l post :
  Forall (fun x => x.1 = false /\ x.2 <> Malformed) pre ->
  forall m,
    streaming ag cl hl role m ->
    running (ds m) = true ->
    exists m',
      stream_loop ag (pre ++ (true, l) :: post) m = Ok tt m'
      /\ streaming ag cl hl role m'
      /\ running (ds m') = false
      /\ full_response m' = full_response m +:+ Py.join (fragments pre).
Proof.
  induction 1 as [|[stop_pressed l'] pre [Hquiet Hl] _ IH]; intros m Hm Hrun;
    cbn [app stream_loop].
  - exists (with_ds (set_running false) m).
    unfold bind at 1. rewrite read_running_eq, andb_false_r.
    split; [done|]. split; [by apply streaming_set_running|].
    destruct m as [[r conv chat mc idx] lmc lidx status full tr]. cbn.
    by rewrite str_app_empty_r.
  - cbn in Hquiet, Hl. subst stop_pressed.
    unfold bind at 1. rewrite read_running_eq, Hrun. cbn [andb negb].
    destruct l' as [| |[p|]]; [| done | |].
    + unfold bind at 1. cbn [ret]. by apply IH.
    + destruct (absorb_streaming ag cl hl role p m Hm) as (m1 & Habs & Hs1 & Hfull & Hrun1).
      rewrite (bind_Ok _ _ _ _ _ Habs).
      destruct (IH m1 Hs1) as (m' & Hloop & Hs' & Hoff & Hfull'); [congruence|].
      exists m'. split; [done|]. split; [done|]. split; [done|].
      rewrite Hfull', Hfull. unfold fragments. cbn [map concat fragment_of snd app].
      fold (fragments pre). change (p :: fragments pre) with ([p] ++ fragments pre).
      by rewrite join_app, join_singleton, str_app_assoc.
    + unfold bind at 1. cbn [ret]. by apply IH.
Qed.

Lemma conclude_stopped ag idx stop_pressed m :
  running (ds m) = false ->
  exists m',
    conclude ag idx stop_pressed m = Ok false m'
    /\ l_message_count m' = l_message_count m
    /\ message_count (ds m') = l_message_count m
    /\ l_current_agent_index m' = l_current_agent_index m
    /\ current_agent_index (ds m') = Some (l_current_agent_index m)
    /\ conversation (ds m') = conversation (ds m)
    /\ chat_history (ds m') = chat_history (ds m)
    /\ running (ds m') = false
    /\ status_text m' = stopped_status.
Proof.
  destruct m as [[r conv chat mc i] lmc lidx status full tr]. cbn. intros ->.
  unfold conclude, bind. rewrite read_running_eq. cbn.
  destruct stop_pressed; cbn; eexists; (split; [reflexivity|]); cbn; repeat split.
Qed.

(** X11.  When stop is pressed while a response is being read, the lines
    from that point on are not consumed.  The entry of the turn keeps the
    concatenation of the fragments read so far and the message is counted,
    but the turn does not hand over: current_agent_index, in the dict and
    in the local variable, still names the agent that was speaking, so
    the next [start_debate] begins with the same agent again. *)
Theorem interrupted_turn_keeps_the_speaker
    (inp : inputs) (te : turn_script) (pre post : list (bool * line)) (l : line)
    (m : machine) :
  l_current_agent_index m = 0 \/ l_current_agent_index m = 1 ->
  running (ds m) = true ->
  reply te = Some (pre ++ (true, l) :: post) ->
  Forall (fun x => x.1 = false /\ x.2 <> Malformed) pre ->
  exists ag m',
    Py.index (agents inp) (l_current_agent_index m) = Some ag
    /\ turn inp te m = Ok false m'
    /\ conversation (ds m')
       = conversation (ds m) ++ [Message (name ag) (Py.join (fragments pre))]
    /\ message_count (ds m') = l_message_count m + 1
    /\ current_agent_index (ds m') = Some (l_current_agent_index m)
    /\ l_current_agent_index m' = l_current_agent_index m
    /\ running (ds m') = false
    /\ status_text m' = stopped_status.
Proof.
  intros Hslot Hrun Hreply Hpre.
  destruct (agent_at_slot inp (l_current_agent_index m)) as [ag Hag]; [done|].
  destruct (agent_at_slot inp (1 - l_current_agent_index m)) as [other Hother]; [lia|].
  exists ag. rewrite (turn_eq inp _ _ _ _ Hag Hother), Hreply.
  unfold bind at 1. cbn [emit modify].
  match goal with |- context [bind _ _ ?mg] => set (m1 := mg) end.
  destruct (stream_loop_interrupted ag _ _ _ pre l post Hpre _
              (placeholder_streaming ag m1))
    as (m2 & Hloop & [Hc2 _] & Hoff2 & Hfull2); [done|].
  pose proof (frame_stream_loop ag (pre ++ (true, l) :: post) (placeholder ag m1))
    as [Hn2 Hl2 _ _ _ _ _ _].
  rewrite Hloop in Hn2, Hl2. cbn [machine_of] in Hn2, Hl2.
  assert (respond ag (Some (pre ++ (true, l) :: post)) m1
          = Ok tt (set_full_response (Py.strip (full_response m2)) m2)) as Hres
    by (by rewrite respond_some_eq, Hloop).
  rewrite (bind_Ok _ _ _ _ _ Hres).
  destruct (conclude_stopped ag (l_current_agent_index m) (stop_at_check te)
              (set_full_response (Py.strip (full_response m2)) m2))
    as (m3 & Hcon & Hn3 & Hd3 & Hl3 & Hi3 & Hc3 & _ & Hoff3 & Hstatus3); [done|].
  exists m3. split; [done|]. split; [done|].
  rewrite Hc3, Hd3, Hi3, Hl3. cbn [set_full_response l_message_count l_current_agent_index
                                     ds conversation].
  rewrite Hc2, Hfull2, Hn2, Hl2. subst m1. cbn. repeat split; done.
Qed.

Lemma interrupted_turn_keeps_the_speaker_example :
  exists ag m',
    Py.index (agents form_defaults) 0 = Some ag
    /\ turn form_defaults
         (TurnScript false
            (Some ([(false, Record_ (Some "Well, "))] ++ (true, Record_ (Some "actually"))
                     :: [(false, Record_ (Some "..."))]))
            false)
         (Machine (DebateState true [] [] 0 (Some 0)) 0 0 started_status EmptyString [])
       = Ok false m'
    /\ conversation (ds m') = [Message (name ag) "Well, "]
    /\ current_agent_index (ds m') = Some 0.
Proof.
  destruct (interrupted_turn_keeps_the_speaker form_defaults
              (TurnScript false
                 (Some ([(false, Record_ (Some "Well, "))] ++ (true, Record_ (Some "actually"))
                          :: [(false, Record_ (Some "..."))]))
                 false)
              [(false, Record_ (Some "Well, "))] [(false, Record_ (Some "..."))]
              (Record_ (Some "actually"))
              (Machine (DebateState true [] [] 0 (Some 0)) 0 0 started_status EmptyString []))
    as (ag & m' & Hag & Hturn & Hc & _ & Hi & _).
  - left. reflexivity.
  - reflexivity.
  - reflexivity.
  - repeat constructor; discriminate.
  - exists ag, m'. split; [exact Hag|]. split; [exact Hturn|]. split; [exact Hc | exact Hi].
Defined.

(** ** The memory window, entry by entry *)

Lemma memory_loop_shift msgs :
  forall budget text acc,
    memory_loop msgs budget text acc
    = memory_loop msgs (budget - acc) EmptyString 0 +:+ text.
Proof.
  induction msgs as [|msg msgs IH]; intros budget text acc; cbn [memory_loop]; [done|].
  replace (0 + Py.len (format_msg msg) >? budget - acc)
    with (acc + Py.len (format_msg msg) >? budget)
    by (destruct (Z.gtb_spec (acc + Py.len (format_msg msg)) budget),
                 (Z.gtb_spec (0 + Py.len (format_msg msg)) (budget - acc)); first [done | lia]).
  destruct (acc + Py.len (format_msg msg) >? budget); [done|].
  rewrite (IH budget). rewrite (IH (budget - acc)).
  rewrite str_app_empty_r, str_app_assoc.
  replace (budget - acc - (0 + Py.len (format_msg msg)))
    with (budget - (acc + Py.len (format_msg msg))) by lia.
  done.
Qed.

(** X12.  The window of a history with one more entry [e]: when [e]
    alone exceeds the budget the window is empty, whatever the older
    entries are; otherwise it is the window of the older entries for the
    budget that [e] leaves, followed by [e]. *)
Theorem build_memory_snoc (history : list message) (e : message) (budget : Z) :
  build_memory (history ++ [e]) budget
  = if Py.len (format_msg e) >? budget then EmptyString
    else build_memory history (budget - Py.len (format_msg e)) +:+ format_msg e.
Proof.
  unfold build_memory. rewrite rev_app_distr. cbn [rev app memory_loop].
  rewrite Z.add_0_l. destruct (Py.len (format_msg e) >? budget); [done|].
  by rewrite memory_loop_shift, str_app_empty_r.
Qed.

Lemma build_memory_unfold history e budget :
  build_memory (history ++ [e]) budget
  = if Py.len (format_msg e) >? budget then EmptyString
    else build_memory history (budget - Py.len (format_msg e)) +:+ format_msg e.
Proof.
  unfold build_memory. rewrite rev_app_distr. cbn [rev app memory_loop].
  rewrite Z.add_0_l. destruct (Py.len (format_msg e) >? budget); [done|].
  by rewrite memory_loop_shift, str_app_empty_r.
Qed.

Lemma build_memory_len history :
  forall budget, 0 <= budget -> Py.len (build_memory history budget) <= budget.
Proof.
  induction history as [|e history IH] using rev_ind; intros budget Hb; [done|].
  rewrite build_memory_unfold.
  destruct (Z.gtb_spec (Py.len (format_msg e)) budget); [done|].
  rewrite len_app. specialize (IH (budget - Py.len (format_msg e))). lia.
Qed.

(** X13.  When the whole history fits the budget, the window is the
    whole history: every entry, formatted, in chronological order. *)
Theorem build_memory_whole_history (history : list message) (budget : Z) :
  total_len history <= budget ->
  build_memory history budget = Py.join (map format_msg history).
Proof.
  revert budget. induction history as [|e history IH] using rev_ind; intros budget Hfit;
    [done|].
  rewrite total_len_snoc in Hfit. pose proof (len_nonneg (Py.join (map format_msg history))).
  fold (total_len history) in *.
  rewrite build_memory_unfold.
  destruct (Z.gtb_spec (Py.len (format_msg e)) budget); [lia|].
  rewrite IH by lia. rewrite map_app, join_app. cbn [map]. by rewrite join_singleton.
Qed.

Lemma build_memory_whole_history_example :
  build_memory [Message "A" "one"; Message "B" "two"] 14
  = "A: one" +:+ newline +:+ "B: two" +:+ newline.
Proof.
  rewrite (build_memory_whole_history [Message "A" "one"; Message "B" "two"] 14).
  - reflexivity.
  - vm_compute. discriminate.
Defined.

(** X14.  The prompt of a turn grows with the conversation only up to
    the memory size: for a non-negative memory size its length is at most
    the length of its fixed parts (system prompt, trimmed rules and topic,
    the name, and 14 characters of separators) plus the memory size,
    however long the conversation is. *)
Theorem prompt_length_is_bounded
    (ag : agent) (stage_rules_text topic_text : string) (conv : list message) :
  0 <= memory_size ag ->
  Py.len (build_prompt ag stage_rules_text topic_text
            (build_memory conv (memory_size ag)))
  <= Py.len (system_prompt ag) + Py.len (Py.strip stage_rules_text)
     + Py.len (Py.strip topic_text) + Py.len (name ag) + 14 + memory_size ag.
Proof.
  intros Hsize. pose proof (build_memory_len conv (memory_size ag) Hsize).
  unfold build_prompt. rewrite !len_app.
  change (Py.len newline) with 1. change (Py.len "Topic: ") with 7.
  change (Py.len ":") with 1. lia.
Qed.

Lemma prompt_length_is_bounded_example :
  Py.len (build_prompt (Agent "A" "Be brief." "llama3" 1%float 40 10 "") "" ""
            (build_memory [Message "B" "a long entry"; Message "A" "ok"] 10))
  <= 9 + 0 + 0 + 1 + 14 + 10.
Proof.
  apply (prompt_length_is_bounded (Agent "A" "Be brief." "llama3" 1%float 40 10 "") "" ""
           [Message "B" "a long entry"; Message "A" "ok"]).
  vm_compute. discriminate.
Defined.

(** ** The speaker's slot *)

Lemma respond_keeps_index ag r m :
  l_current_agent_index (machine_of (respond ag r m)) = l_current_agent_index m
  /\ current_agent_index (ds (machine_of (respond ag r m))) = current_agent_index (ds m).
Proof.
  destruct r as [lines|].
  - rewrite respond_some_eq.
    pose proof (frame_stream_loop ag lines (placeholder ag m)) as [_ Hl _ Hi _ _ _ _].
    by destruct (stream_loop ag lines (placeholder ag m)) as [[] m'|e m'|m'].
  - by destruct (frame_respond_failed ag m) as [_ Hl _ Hi _ _ _ _].
Qed.

Lemma conclude_index ag idx stop_pressed m :
  l_current_agent_index m = idx ->
  let m' := machine_of (conclude ag idx stop_pressed m) in
  (l_current_agent_index m' = idx \/ l_current_agent_index m' = 1 - idx)
  /\ current_agent_index (ds m') = Some (l_current_agent_index m').
Proof.
  destruct m as [[r conv chat mc i] lmc lidx status full tr]. cbn. intros <-.
  unfold conclude, bind. rewrite read_running_eq. cbn.
  destruct r, stop_pressed; cbn; auto.
Qed.

Lemma turn_keeps_slot inp te m :
  (l_current_agent_index m = 0 \/ l_current_agent_index m = 1) ->
  current_agent_index (ds m) = Some (l_current_agent_index m) ->
  let m' := machine_of (turn inp te m) in
  (l_current_agent_index m' = 0 \/ l_current_agent_index m' = 1)
  /\ current_agent_index (ds m') = Some (l_current_agent_index m').
Proof.
  intros Hslot Hset.
  destruct (agent_at_slot inp (l_current_agent_index m)) as [ag Hag]; [done|].
  destruct (agent_at_slot inp (1 - l_current_agent_index m)) as [other Hother]; [lia|].
  rewrite (turn_eq inp _ _ _ _ Hag Hother).
  unfold bind at 1. cbn [emit modify].
  match goal with |- context [bind _ _ ?mg] => set (m1 := mg) end.
  destruct (respond_keeps_index ag (reply te) m1) as [Hl Hi].
  change (l_current_agent_index m1) with (l_current_agent_index m) in Hl.
  change (current_agent_index (ds m1)) with (current_agent_index (ds m)) in Hi.
  unfold bind. destruct (respond ag (reply te) m1) as [[] m2|e m2|m2];
    cbn [machine_of] in Hl, Hi |- *; [|split; [lia | congruence]..].
  destruct (conclude_index ag (l_current_agent_index m) (stop_at_check te) m2 Hl)
    as [Hl3 Hi3].
  split; [lia | done].
Qed.

Lemma debate_loop_keeps_slot inp script :
  forall m,
    (l_current_agent_index m = 0 \/ l_current_agent_index m = 1) ->
    current_agent_index (ds m) = Some (l_current_agent_index m) ->
    let m' := machine_of (debate_loop inp script m) in
    (l_current_agent_index m' = 0 \/ l_current_agent_index m' = 1)
    /\ current_agent_index (ds m') = Some (l_current_agent_index m').
Proof.
  induction script as [|te script IH]; intros m Hslot Hset; cbv zeta.
  - cbn [debate_loop]. destruct (negb _); [done|]. by destruct (running _).
  - remember (debate_loop inp (te :: script) m) as r eqn:Hr.
    cbn [debate_loop] in Hr.
    destruct (negb _); [by subst r|].
    unfold bind at 1 in Hr. rewrite read_running_eq in Hr.
    assert (l_current_agent_index
              (if stop_at_guard te then with_ds (set_running false) m else m)
            = l_current_agent_index m
            /\ current_agent_index
                 (ds (if stop_at_guard te then with_ds (set_running false) m else m))
               = current_agent_index (ds m)) as [Hl0 Hi0]
      by (by destruct (stop_at_guard te)).
    destruct (running (ds m) && negb (stop_at_guard te)); cbn [negb] in Hr;
      [|subst r; unfold ret; cbn [machine_of]; by rewrite Hi0, Hl0].
    pose proof (turn_keeps_slot inp te
                  (if stop_at_guard te then with_ds (set_running false) m else m)
                  ltac:(lia) ltac:(congruence)) as Ht.
    cbv zeta in Ht.
    unfold bind in Hr. destruct (turn inp te _) as [[] m1|e m1|m1]; subst r;
      cbn [machine_of] in Ht |- *; try done.
    destruct Ht. by apply IH.
Qed.

(** X15.  The slot of the speaker stays well formed.  If
    current_agent_index is unset, 0 or 1 before a call of [start_debate],
    it is so after the call, however the call ends; and once a call has
    got past the connectivity probe, it is 0 or 1: only [reset_debate]
    unsets it. *)
Theorem current_agent_index_stays_a_slot (inp : inputs) (w : world) (st : debate_state) :
  (current_agent_index st = None \/ current_agent_index st = Some 0
   \/ current_agent_index st = Some 1) ->
  let st' := (start_debate inp w st).1.2 in
  (current_agent_index st' = None \/ current_agent_index st' = Some 0
   \/ current_agent_index st' = Some 1)
  /\ (running st = false -> reachable w = true ->
      current_agent_index st' = Some 0 \/ current_agent_index st' = Some 1).
Proof.
  intros Hidx.
  destruct (running st) eqn:Hrun; [|destruct (reachable w) eqn:Hreach].
  - rewrite (start_debate_idle inp w st) by auto. by cbn.
  - destruct (start_debate_runs inp w st Hrun Hreach)
      as (m0 & _ & _ & _ & _ & Hi0 & Hd0 & _ & _ & _ & ->).
    assert (l_current_agent_index m0 = 0 \/ l_current_agent_index m0 = 1) as Hslot.
    { rewrite Hi0. destruct Hidx as [-> | [-> | ->]]; [destruct (coin w)|..]; auto. }
    pose proof (debate_loop_keeps_slot inp (turns w) m0 Hslot Hd0) as [Hl1 Hd1].
    assert (current_agent_index
              (ds (machine_of ((debate_loop inp (turns w) ;; finish) m0))) = Some 0
            \/ current_agent_index
                 (ds (machine_of ((debate_loop inp (turns w) ;; finish) m0))) = Some 1)
      as Hend.
    { unfold bind. destruct (debate_loop inp (turns w) m0) as [[] m1|e m1|m1];
        cbn [machine_of] in *.
      - destruct (finish_spec m1) as (m' & -> & _ & _ & Hi' & _). cbn [machine_of].
        rewrite Hi'. destruct Hl1 as [-> | ->]; auto.
      - rewrite Hd1. destruct Hl1 as [-> | ->]; auto.
      - rewrite Hd1. destruct Hl1 as [-> | ->]; auto. }
    destruct ((debate_loop inp (turns w) ;; finish) m0) as [[] m|e m|m];
      cbn in *; auto.
  - rewrite (start_debate_idle inp w st) by auto. by cbn.
Qed.

Lemma current_agent_index_stays_a_slot_example :
  current_agent_index
    (start_debate form_defaults (World true true [undisturbed [Malformed]]) initial_state).1.2
  = Some 0
  \/ current_agent_index
       (start_debate form_defaults (World true true [undisturbed [Malformed]]) initial_state).1.2
     = Some 1.
Proof.
  apply (current_agent_index_stays_a_slot form_defaults
           (World true true [undisturbed [Malformed]]) initial_state).
  - left. reflexivity.
  - reflexivity.
  - reflexivity.
Defined.

Lemma prologue_ignores_coin r1 r2 c1 c2 s1 s2 m i :
  current_agent_index (ds m) = Some i ->
  prologue (World r1 c1 s1) m = prologue (World r2 c2 s2) m.
Proof.
  destruct m as [[r conv chat mc idx] lmc lidx status full tr]. cbn. by intros ->.
Qed.

(** X16.  The first speaker is drawn only in a session that has none
    recorded: when current_agent_index is set, as after [stop_debate], the
    call of [start_debate] does not depend on [random.randint] and
    resumes with the recorded agent. *)
Theorem recorded_speaker_is_not_redrawn
    (inp : inputs) (r c1 c2 : bool) (script : list turn_script) (st : debate_state) (i : Z) :
  current_agent_index st = Some i ->
  start_debate inp (World r c1 script) st = start_debate inp (World r c2 script) st.
Proof.
  intros Hi.
  assert (start_debate_body inp (World r c1 script) (boot st)
          = start_debate_body inp (World r c2 script) (boot st)) as Hbody.
  { destruct (running st) eqn:Hrun; [|destruct r].
    - unfold start_debate_body, bind, read, boot. cbn. by rewrite Hrun.
    - rewrite !start_debate_body_runs by done. cbn [turns]. unfold bind at 1 3.
      by rewrite (prologue_ignores_coin true true c1 c2 script script
                    (Machine st 0 0 EmptyString EmptyString [Probe (ollama_url_input inp)])
                    i Hi).
    - unfold start_debate_body, bind, read, boot. cbn. by rewrite Hrun. }
  unfold start_debate. by rewrite Hbody.
Qed.

Lemma recorded_speaker_is_not_redrawn_example :
  start_debate form_defaults (World true true [undisturbed [Record_ (Some "Again.")]])
    (stop_debate after_one_turn).1
  = start_debate form_defaults (World true false [undisturbed [Record_ (Some "Again.")]])
      (stop_debate after_one_turn).1.
Proof.
  apply (recorded_speaker_is_not_redrawn form_defaults true true false
           [undisturbed [Record_ (Some "Again.")]] (stop_debate after_one_turn).1 0).
  reflexivity.
Defined.

(** ** Stop requests between turns *)

(** X17.  A stop request that arrives while the loop is between two
    turns is honoured at the loop condition: no further generation call is
    made and the rest of the script is not consumed.  The call returns
    with [running] false, the transcript, the count and the speaker as the
    last completed turn left them, and its last status is the one that
    turn left (the status ["Debate stopped."] is only produced by the
    check inside a turn). *)
Theorem stop_between_turns_ends_the_call
    (inp : inputs) (script rest : list turn_script) (te : turn_script) (m mk : machine) :
  after_turns inp script m = Some mk ->
  stop_at_guard te = true ->
  l_message_count mk < 1000 ->
  exists m',
    (debate_loop inp (script ++ te :: rest) ;; finish) m = Ok tt m'
    /\ turns_begun (trace m') = turns_begun (trace mk)
    /\ running (ds m') = false
    /\ conversation (ds m') = conversation (ds mk)
    /\ message_count (ds m') = l_message_count mk
    /\ current_agent_index (ds m') = Some (l_current_agent_index mk)
    /\ last_status (trace m') = Some (status_text mk).
Proof.
  intros Hk Hstop Hlt.
  pose proof (after_turns_debate_loop inp script (te :: rest) m mk Hk) as Hloop.
  assert (debate_loop inp (te :: rest) mk = Ok tt (with_ds (set_running false) mk)) as Hexit.
  { rewrite debate_loop_cons by done. unfold bind. rewrite read_running_eq, Hstop.
    by rewrite andb_false_r. }
  rewrite Hexit in Hloop. rewrite (bind_Ok _ _ _ _ _ Hloop).
  destruct (finish_spec (with_ds (set_running false) mk))
    as (m' & -> & Hoff & Hn & Hi & Hc & _ & Hb & Hstatus).
  exists m'. split; [done|].
  destruct mk as [[r conv chat mc idx] lmc lidx status full tr]. cbn in *.
  destruct (Z.geb_spec lmc 1000); [lia|]. done.
Qed.

Lemma stop_between_turns_ends_the_call_example :
  exists m',
    (debate_loop form_defaults
       ([undisturbed [Record_ (Some "Hi.")]] ++ stop_now :: [failed_call]) ;; finish)
      (Machine (DebateState true [] [] 0 (Some 0)) 0 0 started_status EmptyString [])
    = Ok tt m'
    /\ last_status (trace m') = Some "Climate Scientist finished responding."
    /\ running (ds m') = false.
Proof.
  destruct (stop_between_turns_ends_the_call form_defaults
              [undisturbed [Record_ (Some "Hi.")]] [failed_call] stop_now
              (Machine (DebateState true [] [] 0 (Some 0)) 0 0 started_status EmptyString [])
              (default (boot initial_state)
                 (after_turns form_defaults [undisturbed [Record_ (Some "Hi.")]]
                    (Machine (DebateState true [] [] 0 (Some 0)) 0 0 started_status
                       EmptyString []))))
    as (m' & Hrun & _ & Hoff & _ & _ & _ & Hstatus).
  - vm_compute. reflexivity.
  - reflexivity.
  - vm_compute. reflexivity.
  - exists m'. split; [exact Hrun|]. split; [exact Hstatus | exact Hoff].
Defined.

(** ** What is stored, who speaks, what is asked *)

(** X18.  When a response is read to its end without a stop request, the
    entry of the turn holds exactly the concatenation of the fragments, in
    the order received, and the chat entry shows it after ["<name>: "]; no
    fragment is lost and nothing is added or trimmed. *)
Theorem stored_content_is_the_concatenation
    (ag : agent) (lines : list (bool * line)) (m : machine) :
  Forall (fun x => x.1 = false /\ x.2 <> Malformed) lines ->
  running (ds m) = true ->
  exists m',
    respond ag (Some lines) m = Ok tt m'
    /\ conversation (ds m')
       = conversation (ds m) ++ [Message (name ag) (Py.join (fragments lines))]
    /\ chat_content <$> last (chat_history (ds m'))
       = Some (name ag +:+ ": " +:+ Py.join (fragments lines)).
Proof.
  intros Hlines Hrun. rewrite respond_some_eq.
  destruct (stream_loop_returns ag _ _ _ lines
              (Forall_impl _ _ _ Hlines (fun x H => proj2 H)) _
              (placeholder_streaming ag m))
    as (m1 & -> & [Hc Hh] & Hfull).
  destruct Hfull as [_ Hfull];
    [exact (Forall_impl _ _ _ Hlines (fun x H => proj1 H)) | exact Hrun |].
  cbn [placeholder full_response] in Hfull. cbn [String.append] in Hfull.
  eexists. split; [reflexivity|].
  destruct m1 as [[r conv chat mc idx] lmc lidx status full tr]. cbn in *. subst.
  by rewrite last_snoc.
Qed.

Lemma stored_content_is_the_concatenation_example :
  exists m',
    respond (Agent "A" "" "llama3" 1%float 40 2000 "")
      (Some [(false, Record_ (Some "Hel")); (false, Blank); (false, Record_ (Some "lo "))])
      (boot (DebateState true [] [] 0 (Some 0)))
    = Ok tt m'
    /\ conversation (ds m') = [Message "A" "Hello "].
Proof.
  destruct (stored_content_is_the_concatenation (Agent "A" "" "llama3" 1%float 40 2000 "")
              [(false, Record_ (Some "Hel")); (false, Blank); (false, Record_ (Some "lo "))]
              (boot (DebateState true [] [] 0 (Some 0))))
    as (m' & Hres & Hc & _).
  - repeat constructor; discriminate.
  - reflexivity.
  - exists m'. split; [exact Hres | exact Hc].
Defined.

Lemma lstrip_blank (s : string) :
  Forall (fun c => Py.isspace c = true) (list_ascii_of_string s) ->
  Py.lstrip s = EmptyString.
Proof.
  induction s as [|c s IH]; [done|]. cbn [list_ascii_of_string Py.lstrip].
  intros Hall. inversion Hall as [|? ? Hc Hs]; subst. rewrite Hc. by apply IH.
Qed.

Lemma strip_blank (s : string) :
  Forall (fun c => Py.isspace c = true) (list_ascii_of_string s) ->
  Py.strip s = EmptyString.
Proof. intros Hblank. unfold Py.strip. by rewrite (lstrip_blank _ Hblank). Qed.

(** X19.  Every agent has a non-empty name: a name field that is empty
    or holds only whitespace gives the agent the name ["Agent 1"] or
    ["Agent 2"] of its slot, so that no chat entry starts with a bare
    colon and no stop sequence is the bare [":"]. *)
Theorem agent_names_are_never_blank (inp : inputs) :
  (forall i ag, Py.index (agents inp) i = Some ag -> name ag <> EmptyString)
  /\ (Forall (fun c => Py.isspace c = true) (list_ascii_of_string (agent1_name_text inp)) ->
      name <$> Py.index (agents inp) 0 = Some "Agent 1")
  /\ (Forall (fun c => Py.isspace c = true) (list_ascii_of_string (agent2_name_text inp)) ->
      name <$> Py.index (agents inp) 1 = Some "Agent 2").
Proof.
  split; [|split].
  - intros i ag Hag.
    assert (ag ∈ agents inp) as Hin.
    { unfold Py.index in Hag.
      destruct (0 <=? i); [by apply list_elem_of_lookup_2 in Hag|].
      destruct (_ <=? i); [by apply list_elem_of_lookup_2 in Hag | discriminate]. }
    unfold agents in Hin. apply elem_of_cons in Hin as [-> | Hin].
    + cbn. by destruct (Py.strip (agent1_name_text inp)).
    + apply list_elem_of_singleton in Hin as ->.
      cbn. by destruct (Py.strip (agent2_name_text inp)).
  - intros Hblank.
    assert (name <$> Py.index (agents inp) 0
            = Some (Py.or_else (Py.strip (agent1_name_text inp)) "Agent 1")) as ->
      by reflexivity.
    by rewrite (strip_blank _ Hblank).
  - intros Hblank.
    assert (name <$> Py.index (agents inp) 1
            = Some (Py.or_else (Py.strip (agent2_name_text inp)) "Agent 2")) as ->
      by reflexivity.
    by rewrite (strip_blank _ Hblank).
Qed.

Lemma agent_names_are_never_blank_example :
  name <$> Py.index
             (agents (Inputs "" "" "  " "" "m" 1%float 40 100 "Bob" "" "m" 1%float 40 100 "")) 0
  = Some "Agent 1".
Proof.
  apply (agent_names_are_never_blank
           (Inputs "" "" "  " "" "m" 1%float 40 100 "Bob" "" "m" 1%float 40 100 "")).
  repeat constructor.
Defined.

(** ** Generation requests *)

Lemma asks_same_trace inp m m' : trace m' = trace m -> asks inp m m'.
Proof. intros Htr. exists []. by rewrite app_nil_r. Qed.

Lemma asks_refl inp m : asks inp m m.
Proof. by apply asks_same_trace. Qed.

Lemma asks_trans inp m1 m2 m3 : asks inp m1 m2 -> asks inp m2 m3 -> asks inp m1 m3.
Proof.
  intros (new1 & H1 & Hok1) (new2 & H2 & Hok2). exists (new1 ++ new2).
  split; [by rewrite H2, H1, (assoc_L (++)) | by apply Forall_app].
Qed.

Lemma asks_bind inp {A B} (c : M A) (k : A -> M B) :
  (forall m, asks inp m (machine_of (c m))) ->
  (forall a m, asks inp m (machine_of (k a m))) ->
  forall m, asks inp m (machine_of (bind c k m)).
Proof.
  intros Hc Hk m. unfold bind. specialize (Hc m).
  destruct (c m) as [a m'|e m'|m']; cbn in *; [|done..].
  eapply asks_trans; [exact Hc | apply Hk].
Qed.

Lemma asks_ret inp {A} (a : A) m : asks inp m (machine_of (ret a m)).
Proof. apply asks_refl. Qed.

Lemma asks_raise inp {A} e m : asks inp m (machine_of (raise (A:=A) e m)).
Proof. apply asks_refl. Qed.

Lemma asks_read inp {A} (f : machine -> A) m : asks inp m (machine_of (read f m)).
Proof. apply asks_refl. Qed.

Lemma asks_from_option inp {A} e (o : option A) m :
  asks inp m (machine_of (from_option e o m)).
Proof. destruct o; apply asks_refl. Qed.

Lemma asks_with_ds inp f m : asks inp m (machine_of (modify (with_ds f) m)).
Proof. by apply asks_same_trace. Qed.

Lemma asks_set_status_text inp s m : asks inp m (machine_of (modify (set_status_text s) m)).
Proof. by apply asks_same_trace. Qed.

Lemma asks_set_full_response inp s m :
  asks inp m (machine_of (modify (set_full_response s) m)).
Proof. by apply asks_same_trace. Qed.

Lemma asks_set_l_message_count inp n m :
  asks inp m (machine_of (modify (set_l_message_count n) m)).
Proof. by apply asks_same_trace. Qed.

Lemma asks_set_l_current_agent_index inp i m :
  asks inp m (machine_of (modify (set_l_current_agent_index i) m)).
Proof. by apply asks_same_trace. Qed.

Lemma asks_emit inp e m : well_addressed inp e -> asks inp m (machine_of (emit e m)).
Proof. intros He. exists [e]. split; [done|]. by constructor. Qed.

Lemma asks_yield_chat inp a b m : asks inp m (machine_of (yield_chat a b m)).
Proof. by apply asks_emit. Qed.

Lemma asks_read_running inp stop_pressed m :
  asks inp m (machine_of (read_running stop_pressed m)).
Proof. rewrite read_running_eq. by destruct stop_pressed; apply asks_same_trace. Qed.

Ltac asks_step :=
  first [ apply asks_ret | apply asks_raise | apply asks_read | apply asks_from_option
        | apply asks_with_ds | apply asks_set_status_text | apply asks_set_full_response
        | apply asks_set_l_message_count | apply asks_set_l_current_agent_index
        | apply asks_yield_chat | apply asks_read_running
        | apply asks_emit; exact I
        | cbv zeta; apply asks_bind; intros ].

Lemma asks_set_last_chat_content inp v m :
  asks inp m (machine_of (set_last_chat_content v m)).
Proof. unfold set_last_chat_content. revert m. repeat asks_step. Qed.

Lemma asks_set_last_conversation_content inp v m :
  asks inp m (machine_of (set_last_conversation_content v m)).
Proof. unfold set_last_conversation_content. revert m. repeat asks_step. Qed.

Lemma asks_write_back inp m : asks inp m (machine_of (write_back m)).
Proof. unfold write_back. repeat asks_step. Qed.

Lemma asks_absorb inp ag p m : asks inp m (machine_of (absorb ag p m)).
Proof.
  unfold absorb.
  repeat first [ apply asks_set_last_chat_content
               | apply asks_set_last_conversation_content | asks_step ].
Qed.

Lemma asks_stream_loop inp ag lines :
  forall m, asks inp m (machine_of (stream_loop ag lines m)).
Proof.
  induction lines as [|[stop_pressed l] lines IH]; [apply asks_refl|].
  cbn [stream_loop]. apply asks_bind; [apply asks_read_running|].
  intros r. destruct r; cbn [negb]; [|apply asks_ret].
  apply asks_bind; [|intros; apply IH].
  destruct l as [| |[p|]]; first [apply asks_ret | apply asks_raise | apply asks_absorb].
Qed.

Lemma asks_respond inp ag r m : asks inp m (machine_of (respond ag r m)).
Proof.
  destruct r as [lines|]; unfold respond;
    repeat first [ apply asks_stream_loop | apply asks_set_last_chat_content
                 | apply asks_set_last_conversation_content | asks_step ].
Qed.

Lemma asks_conclude inp ag idx stop_pressed m :
  asks inp m (machine_of (conclude ag idx stop_pressed m)).
Proof.
  unfold conclude. apply asks_bind; [apply asks_read_running|].
  intros r. destruct r; cbn [negb]; repeat first [apply asks_write_back | asks_step].
Qed.

Lemma asks_turn inp te m : asks inp m (machine_of (turn inp te m)).
Proof.
  destruct (Py.index (agents inp) (l_current_agent_index m)) as [ag|] eqn:E1.
  2:{ unfold turn, agent_at, bind, read. rewrite E1. apply asks_refl. }
  destruct (Py.index (agents inp) (1 - l_current_agent_index m)) as [other|] eqn:E2.
  2:{ unfold turn, agent_at, bind, read. rewrite E1. cbn. rewrite E2. apply asks_refl. }
  rewrite (turn_eq inp _ _ _ _ E1 E2).
  apply asks_bind.
  - intros m1. apply asks_emit.
    exists (l_current_agent_index m), (conversation (ds m)). split.
    + apply agent_at_range in E1. apply agent_at_range in E2. lia.
    + unfold request_of. by rewrite E1, E2.
  - intros _ m1. apply asks_bind; intros; [apply asks_respond | apply asks_conclude].
Qed.

Lemma asks_debate_loop inp script :
  forall m, asks inp m (machine_of (debate_loop inp script m)).
Proof.
  induction script as [|te script IH]; intros m; cbn [debate_loop].
  - destruct (negb _); [apply asks_refl|]. destruct (running _); apply asks_refl.
  - destruct (negb _); [apply asks_refl|].
    apply asks_bind; [apply asks_read_running|].
    intros r. destruct r; cbn [negb]; [|apply asks_ret].
    apply asks_bind; [intros; apply asks_turn|].
    intros continue m1. destruct continue; [apply IH | apply asks_ret].
Qed.

Lemma asks_finish inp m : asks inp m (machine_of (finish m)).
Proof.
  unfold finish. apply asks_bind; [apply asks_read|]. intros n m1.
  destruct (n >=? 1000); repeat first [apply asks_write_back | asks_step].
Qed.

Lemma asks_prologue inp w m : asks inp m (machine_of (prologue w m)).
Proof.
  unfold prologue. apply asks_bind; [apply asks_read|]. intros n m1.
  apply asks_bind; [apply asks_set_l_message_count|]. intros _ m2.
  apply asks_bind; [apply asks_read|]. intros i m3.
  destruct i; repeat asks_step.
Qed.

Lemma asks_start_debate_body inp w m :
  asks inp m (machine_of (start_debate_body inp w m)).
Proof.
  unfold start_debate_body. apply asks_bind; [apply asks_read|]. intros r m1.
  destruct r; [by apply asks_emit|].
  apply asks_bind; [intros; by apply asks_emit|]. intros _ m2.
  destruct (negb (reachable w)).
  - apply asks_bind; [apply asks_read|]. intros h m3. by apply asks_emit.
  - apply asks_bind; [intros; apply asks_prologue|]. intros _ m3.
    apply asks_bind; intros; [apply asks_debate_loop | apply asks_finish].
Qed.

(** X20.  Every generation request a call of [start_debate] makes is the
    request of one of the two slots: it goes to the URL of the call and to
    the model of the speaking agent, with that agent's temperature and
    top_k, a prompt built for that agent from a memory window of its
    memory size, and a stop list of exactly one entry, the name of the
    agent in the other slot followed by a colon. *)
Theorem requests_are_well_addressed (inp : inputs) (w : world) (st : debate_state) :
  Forall (well_addressed inp) (start_debate inp w st).2
  /\ (forall url mdl prompt opts,
        Generate url mdl prompt opts ∈ (start_debate inp w st).2 ->
        url = ollama_url_input inp
        /\ exists i ag other,
             (i = 0 \/ i = 1)
             /\ Py.index (agents inp) i = Some ag
             /\ Py.index (agents inp) (1 - i) = Some other
             /\ mdl = model ag
             /\ opts = Options (temperature ag) (top_k ag) [name other +:+ ":"]).
Proof.
  assert (Forall (well_addressed inp) (start_debate inp w st).2) as Hall.
  { destruct (asks_start_debate_body inp w (boot st)) as (new & Htr & Hok).
    unfold start_debate.
    destruct (start_debate_body inp w (boot st)) as [[] m|e m|m]; cbn in *; by subst. }
  split; [done|].
  intros url mdl prompt opts Hin.
  rewrite Forall_forall in Hall. specialize (Hall _ Hin) as (i & conv & Hslot & Hreq).
  unfold request_of in Hreq.
  destruct (Py.index (agents inp) i) as [ag|] eqn:E1; [|discriminate].
  destruct (Py.index (agents inp) (1 - i)) as [other|] eqn:E2; [|discriminate].
  injection Hreq as <- <- <- <-. split; [done|]. by exists i, ag, other.
Qed.

Lemma requests_are_well_addressed_example :
  exists i ag other,
    (i = 0 \/ i = 1)
    /\ Py.index (agents form_defaults) i = Some ag
    /\ Py.index (agents form_defaults) (1 - i) = Some other
    /\ "llama3" = model ag
    /\ Options 1%float 40 ["Conservative Farmer:"]
       = Options (temperature ag) (top_k ag) [name other +:+ ":"].
Proof.
  destruct (requests_are_well_addressed form_defaults
              (World true false [undisturbed [Record_ (Some "Hi.")]; stop_now])
              initial_state) as [_ Hreq].
  apply (Hreq "http://localhost:11434" "llama3"
           (build_prompt (Agent "Climate Scientist"
              "You are a knowledgeable climate scientist advocating for immediate action to combat climate change."
              "llama3" 1%float 40 2000 EmptyString)
              "Stay on topic and keep your responses short." "Climate change" EmptyString)
           (Options 1%float 40 ["Conservative Farmer:"])).
  apply (list_elem_of_lookup_2 _ 2%nat). vm_compute. reflexivity.
Defined.

(** * The speaker's index over a whole call *)

(** ** Turns that ran to the end of the loop body *)































(** ** Alternation *)






